(** * TaskManager (src/main.py): a shallow embedding and its properties

    The development follows the Python source method by method.  A task is
    the dictionary the source builds ([gmap string value]); the manager is a
    record of its four attributes; everything the methods touch besides the
    manager (the wall clock, the event loop's ready queue, the lists handed
    to deferred callbacks, the observers' call log, standard output) is kept
    in one state record that the methods thread through a state-and-exception
    monad.

    Conventions.  Python is dynamically typed, so the values are a sum type
    ([None], booleans, integers, strings, naive and aware [datetime]
    objects, lists) and every operation the source applies to a value
    ([==], truth value, [<], [.lower()], [.__len__()], subscripting) is
    modelled with the exception it raises on the wrong kind of value.  A
    coroutine object is the monadic computation it will run when awaited.
    The library functions [datetime.fromisoformat] and [str.lower] and the
    clock behind [datetime.now] are section variables;
    [fromisoformat_date], [lower] and [clock_from] instantiate them where a
    method is run on a concrete input.  Observers are functions of their
    arguments: they return or raise an [Exception], and they do not reach
    back into the manager.  The methods run with an event loop current, as
    they do under [asyncio.run] in the source. *)

From Stdlib Require Import ZArith Ascii String Floats Uint63.
From stdpp Require Import gmap strings list fin_maps sorting.

Open Scope string_scope.
Open Scope Z_scope.
Open Scope list_scope.

(** ** Python values and exceptions *)

(** The values that occur in task dictionaries and arguments: [None],
    booleans, integers, strings, [datetime] objects and lists.  A naive
    [datetime] ([VDate]) is a count of microseconds on the time line
    [datetime.now()] reads; an aware one ([VAware]) is its instant in UTC,
    in microseconds, together with its UTC offset. *)
#[warnings="-register-all"]
Inductive value :=
| VNone
| VBool (b : bool)
| VInt (z : Z)
| VStr (s : string)
| VDate (d : Z)
| VAware (utc offset : Z)
| VList (l : list value).

Fixpoint value_eqdec (v w : value) : Decision (v = w).
Proof.
  refine
    match v, w with
    | VNone, VNone => left _
    | VBool a, VBool b => cast_if (decide (a = b))
    | VInt a, VInt b => cast_if (decide (a = b))
    | VStr a, VStr b => cast_if (decide (a = b))
    | VDate a, VDate b => cast_if (decide (a = b))
    | VAware a o, VAware b o' => cast_if_and (decide (a = b)) (decide (o = o'))
    | VList l, VList l' => cast_if (@list_eq_dec _ value_eqdec l l')
    | _, _ => right _
    end; abstract congruence.
Defined.
#[global] Instance value_eq_dec : EqDecision value := value_eqdec.

(** What [datetime.fromisoformat] returns: a naive [datetime], or an aware
    one when the string carries a UTC offset. *)
Inductive datetime :=
| Naive (t : Z)
| Aware (utc offset : Z).

(** The argument of the two [raise Exception(...)] sites: [False] in
    [validateTask], a message in [addTask]. *)
Inductive exn_arg :=
| ArgBool (b : bool)
| ArgStr (s : string).

Inductive exn :=
| Exception (arg : exn_arg)
| ValueError (msg : string)
| TypeError (msg : string)
| AttributeError (msg : string)
| KeyError (key : string)
| IndexError (msg : string)
| ZeroDivisionError (msg : string).

#[global] Instance exn_arg_eq_dec : EqDecision exn_arg.
Proof. solve_decision. Defined.
#[global] Instance exn_eq_dec : EqDecision exn.
Proof. solve_decision. Defined.

Definition str_bool (b : bool) : string := if b then "True" else "False".

(** [repr] of a string.  The quote is the apostrophe, unless the string
    has an apostrophe and no double quote; the backslash and the quote in
    use are escaped, tab, newline and carriage return are written [\t],
    [\n], [\r], and the other control characters of ASCII as [\xNN].
    Strings are UTF-8 text; a character outside ASCII is taken to be
    printable and is kept. *)
Definition apostrophe : ascii := ascii_of_nat 39.
Definition double_quote : ascii := ascii_of_nat 34.
Definition backslash : ascii := ascii_of_nat 92.

Definition hex_digit (n : nat) : ascii :=
  if (n <? 10)%nat then ascii_of_nat (48 + n) else ascii_of_nat (87 + n).

Definition repr_char (quote c : ascii) : string :=
  let n := nat_of_ascii c in
  if Ascii.eqb c backslash then String backslash (String backslash EmptyString)
  else if Ascii.eqb c quote then String backslash (String quote EmptyString)
  else if (n =? 9)%nat then String backslash "t"
  else if (n =? 10)%nat then String backslash "n"
  else if (n =? 13)%nat then String backslash "r"
  else if (n <? 32)%nat || (n =? 127)%nat
  then String backslash
         (String "x" (String (hex_digit (n / 16)) (String (hex_digit (n mod 16)) EmptyString)))
  else String c EmptyString.

Fixpoint has_char (c : ascii) (s : string) : bool :=
  match s with
  | EmptyString => false
  | String c' s' => Ascii.eqb c c' || has_char c s'
  end.

Fixpoint repr_chars (quote : ascii) (s : string) : string :=
  match s with
  | EmptyString => EmptyString
  | String c s' => repr_char quote c +:+ repr_chars quote s'
  end.

Definition repr_str (s : string) : string :=
  let quote :=
    if has_char apostrophe s && negb (has_char double_quote s)
    then double_quote else apostrophe in
  String quote (repr_chars quote s) +:+ String quote EmptyString.

(** [str(e)]: the message of a built-in exception, [str] of the argument of
    [Exception(arg)], and for [KeyError(key)] the [repr] of the key. *)
Definition str_exn (e : exn) : string :=
  match e with
  | Exception (ArgBool b) => str_bool b
  | Exception (ArgStr s) => s
  | ValueError m | TypeError m | AttributeError m
  | IndexError m | ZeroDivisionError m => m
  | KeyError k => repr_str k
  end.

(** [bool(v)], the truth value Python's [if], [and], [or] and [not] test. *)
Definition truthy (v : value) : bool :=
  match v with
  | VNone => false
  | VBool b => b
  | VInt z => negb (z =? 0)
  | VStr s => negb (String.eqb s "")
  | VDate _ | VAware _ _ => true
  | VList l => match l with [] => false | _ :: _ => true end
  end.

(** [hasattr(v, '__len__')]. *)
Definition has_len (v : value) : bool :=
  match v with
  | VStr _ | VList _ => true
  | _ => false
  end.

(** Booleans are integers in Python: [True == 1]. *)
Definition as_number (v : value) : option Z :=
  match v with
  | VBool b => Some (if b then 1 else 0)
  | VInt z => Some z
  | _ => None
  end.

(** [v == w]: numbers by value, strings and naive datetimes by content,
    aware datetimes by their instant, lists element by element; values of
    different kinds are not equal (a naive and an aware [datetime] too). *)
Fixpoint py_eq (v w : value) : bool :=
  match v, w with
  | VNone, VNone => true
  | VStr a, VStr b => String.eqb a b
  | VDate a, VDate b => a =? b
  | VAware a _, VAware b _ => a =? b
  | VList l, VList l' =>
      (fix go (l l' : list value) : bool :=
         match l, l' with
         | [], [] => true
         | x :: l, y :: l' => py_eq x y && go l l'
         | _, _ => false
         end) l l'
  | _, _ =>
      match as_number v, as_number w with
      | Some a, Some b => a =? b
      | _, _ => false
      end
  end.

Definition type_name (v : value) : string :=
  match v with
  | VNone => "NoneType"
  | VBool _ => "bool"
  | VInt _ => "int"
  | VStr _ => "str"
  | VDate _ | VAware _ _ => "datetime.datetime"
  | VList _ => "list"
  end.

Definition no_attribute (v : value) (attr : string) : exn :=
  AttributeError ("'" +:+ type_name v +:+ "' object has no attribute '" +:+ attr +:+ "'").

(** ** Tasks, observers and the state *)

Abbreviation Task := (gmap string value).

(** An observer is a callback [(event, task) -> None] that may raise.  The
    manager hands it the task for reading only, so a callback is a function
    of its arguments: [None] when it returns, [Some e] when it raises [e].
    [obs_id] is the identity of the callable, which [in] and [remove] compare. *)
Record Observer := {
  obs_id : nat;
  obs_call : string → Task → option exn
}.

(** The lambda that [getTasksByPriority] hands to [call_soon].  It closes
    over the list [results], over the loop variable [i] of the enclosing
    frame (the variable, not the value it has when the lambda is made) and
    over [priority]. *)
Record Callback := {
  cb_results : nat;     (* address of the list [results] *)
  cb_i : nat;           (* address of the variable [i] *)
  cb_priority : value
}.

Record State := {
  (* the attributes of the TaskManager instance *)
  tasks : list Task;
  completedTasks : list Task;
  observers : list Observer;
  idCounter : Z;
  (* its surroundings *)
  ticks : nat;                       (* reads of datetime.now() so far *)
  trace : list (nat * string * Task); (* observer calls, oldest first *)
  stdout : list string;              (* lines printed, oldest first *)
  ready : list Callback;             (* the event loop's ready queue *)
  heap : list (list Task);           (* the result lists of getTasksByPriority *)
  cells : list nat;                  (* the loop variables its lambdas captured *)
  loop_errors : list exn             (* exceptions the event loop reported *)
}.

(** [TaskManager()] in fresh surroundings. *)
Definition init : State :=
  {| tasks := []; completedTasks := []; observers := []; idCounter := 0;
     ticks := 0; trace := []; stdout := []; ready := []; heap := [];
     cells := []; loop_errors := [] |}.

Definition set_tasks (f : list Task → list Task) (s : State) : State :=
  {| tasks := f (tasks s); completedTasks := completedTasks s;
     observers := observers s; idCounter := idCounter s; ticks := ticks s;
     trace := trace s; stdout := stdout s; ready := ready s; heap := heap s;
     cells := cells s; loop_errors := loop_errors s |}.

Definition set_completedTasks (f : list Task → list Task) (s : State) : State :=
  {| tasks := tasks s; completedTasks := f (completedTasks s);
     observers := observers s; idCounter := idCounter s; ticks := ticks s;
     trace := trace s; stdout := stdout s; ready := ready s; heap := heap s;
     cells := cells s; loop_errors := loop_errors s |}.

Definition set_observers (f : list Observer → list Observer) (s : State) : State :=
  {| tasks := tasks s; completedTasks := completedTasks s;
     observers := f (observers s); idCounter := idCounter s; ticks := ticks s;
     trace := trace s; stdout := stdout s; ready := ready s; heap := heap s;
     cells := cells s; loop_errors := loop_errors s |}.

Definition set_idCounter (f : Z → Z) (s : State) : State :=
  {| tasks := tasks s; completedTasks := completedTasks s;
     observers := observers s; idCounter := f (idCounter s); ticks := ticks s;
     trace := trace s; stdout := stdout s; ready := ready s; heap := heap s;
     cells := cells s; loop_errors := loop_errors s |}.

Definition set_ticks (f : nat → nat) (s : State) : State :=
  {| tasks := tasks s; completedTasks := completedTasks s;
     observers := observers s; idCounter := idCounter s; ticks := f (ticks s);
     trace := trace s; stdout := stdout s; ready := ready s; heap := heap s;
     cells := cells s; loop_errors := loop_errors s |}.

Definition set_trace (f : list (nat * string * Task) → list (nat * string * Task))
    (s : State) : State :=
  {| tasks := tasks s; completedTasks := completedTasks s;
     observers := observers s; idCounter := idCounter s; ticks := ticks s;
     trace := f (trace s); stdout := stdout s; ready := ready s; heap := heap s;
     cells := cells s; loop_errors := loop_errors s |}.

Definition set_stdout (f : list string → list string) (s : State) : State :=
  {| tasks := tasks s; completedTasks := completedTasks s;
     observers := observers s; idCounter := idCounter s; ticks := ticks s;
     trace := trace s; stdout := f (stdout s); ready := ready s; heap := heap s;
     cells := cells s; loop_errors := loop_errors s |}.

Definition set_ready (f : list Callback → list Callback) (s : State) : State :=
  {| tasks := tasks s; completedTasks := completedTasks s;
     observers := observers s; idCounter := idCounter s; ticks := ticks s;
     trace := trace s; stdout := stdout s; ready := f (ready s); heap := heap s;
     cells := cells s; loop_errors := loop_errors s |}.

Definition set_heap (f : list (list Task) → list (list Task)) (s : State) : State :=
  {| tasks := tasks s; completedTasks := completedTasks s;
     observers := observers s; idCounter := idCounter s; ticks := ticks s;
     trace := trace s; stdout := stdout s; ready := ready s; heap := f (heap s);
     cells := cells s; loop_errors := loop_errors s |}.

Definition set_cells (f : list nat → list nat) (s : State) : State :=
  {| tasks := tasks s; completedTasks := completedTasks s;
     observers := observers s; idCounter := idCounter s; ticks := ticks s;
     trace := trace s; stdout := stdout s; ready := ready s; heap := heap s;
     cells := f (cells s); loop_errors := loop_errors s |}.

Definition set_loop_errors (f : list exn → list exn) (s : State) : State :=
  {| tasks := tasks s; completedTasks := completedTasks s;
     observers := observers s; idCounter := idCounter s; ticks := ticks s;
     trace := trace s; stdout := stdout s; ready := ready s; heap := heap s;
     cells := cells s; loop_errors := f (loop_errors s) |}.

(** ** The monad: state that survives a raised exception *)

Inductive result (A : Type) :=
| Ok (a : A)
| Raise (e : exn).
Arguments Ok {A} a.
Arguments Raise {A} e.

Definition M (A : Type) : Type := State → result A * State.

Definition ret {A} (a : A) : M A := λ s, (Ok a, s).
Definition raise {A} (e : exn) : M A := λ s, (Raise e, s).
Definition bind {A B} (m : M A) (k : A → M B) : M B :=
  λ s, match m s with
       | (Ok a, s') => k a s'
       | (Raise e, s') => (Raise e, s')
       end.
Definition get : M State := λ s, (Ok s, s).
Definition modify (f : State → State) : M unit := λ s, (Ok tt, f s).
Definition lift {A} (r : result A) : M A := λ s, (r, s).

(** [try: m  except Exception as e: h e]. *)
Definition try_except {A} (m : M A) (h : exn → M A) : M A :=
  λ s, match m s with
       | (Ok a, s') => (Ok a, s')
       | (Raise e, s') => h e s'
       end.

#[global] Instance result_ret : MRet result := @Ok.
#[global] Instance result_bind : MBind result := λ A B k r,
  match r with
  | Ok a => k a
  | Raise e => Raise e
  end.

#[global] Instance M_ret : MRet M := @ret.
#[global] Instance M_bind : MBind M := λ A B k m, bind m k.

(** [for x in xs: body x]. *)
Fixpoint for_each {A} (xs : list A) (body : A → M unit) : M unit :=
  match xs with
  | [] => ret tt
  | x :: xs' => body x;; for_each xs' body
  end.

(** [d[key]] and [d.get(key)] / [d.get(key, dflt)]. *)
Definition subscript (d : Task) (key : string) : result value :=
  match d !! key with
  | Some v => Ok v
  | None => Raise (KeyError key)
  end.

Definition dict_get (d : Task) (key : string) (dflt : value) : value :=
  default dflt (d !! key).

(** ** Library functions the methods use *)

(** A list comprehension [[x for x in xs if cond x]] whose condition may
    raise. *)
Fixpoint comprehension {A} (cond : A → result bool) (xs : list A) : result (list A) :=
  match xs with
  | [] => Ok []
  | x :: xs' =>
      b ← cond x;
      rest ← comprehension cond xs';
      Ok (if (b : bool) then x :: rest else rest)
  end.

(** [sorted(xs, key=key)] for keys that [<] orders totally: the sort is
    stable, so its result is that of inserting the elements from the right,
    each in front of the first element whose key is not smaller. *)
Fixpoint insert_by {A} (key : A → Z) (x : A) (l : list A) : list A :=
  match l with
  | [] => [x]
  | y :: l' => if key x <=? key y then x :: y :: l' else y :: insert_by key x l'
  end.

Definition sorted {A} (key : A → Z) (xs : list A) : list A :=
  foldr (insert_by key) [] xs.

(** [str.lower] where the text is ASCII: the instance of the library
    function on which [searchTasks] is run on concrete inputs. *)
Definition lower_ascii (c : ascii) : ascii :=
  let n := nat_of_ascii c in
  if (65 <=? n)%nat && (n <=? 90)%nat then ascii_of_nat (n + 32) else c.

Fixpoint lower (s : string) : string :=
  match s with
  | EmptyString => EmptyString
  | String c s' => String (lower_ascii c) (lower s')
  end.

(** [needle in hay] on strings. *)
Fixpoint contains (needle hay : string) : bool :=
  String.prefix needle hay ||
  match hay with
  | EmptyString => false
  | String _ hay' => contains needle hay'
  end.

(** [a / b] on the lengths of lists: true division, a [float].  The
    operands are below 2^53, where the conversion to [float] is exact. *)
Definition float_of_Z (z : Z) : float := PrimFloat.of_uint63 (Uint63.of_Z z).

Definition truediv (a b : Z) : result float :=
  if b =? 0 then Raise (ZeroDivisionError "division by zero")
  else Ok (PrimFloat.div (float_of_Z a) (float_of_Z b)).

(** The dictionary [getTaskStats] returns. *)
Record Stats := {
  total : Z;
  completed : Z;
  pending : Z;
  overdue : Z;
  completionRate : float
}.

(** ** The methods of TaskManager *)

Section TaskManager.

(** [datetime.datetime.fromisoformat], the library's parser: the
    [datetime] a string denotes, or the exception it raises on it. *)
Variable fromisoformat : string → result datetime.

(** The wall clock: what the [n]-th read of [datetime.datetime.now()]
    returns, a naive [datetime]. *)
Variable clock : nat → Z.

(** [str.lower], the library's lowercasing of a string. *)
Variable str_lower : string → string.

Definition datetime_now : M Z :=
  s ← get;
  modify (set_ticks S);;
  mret (clock (ticks s)).

(** [notifyObservers]: every observer is called in registration order; an
    exception is printed and the loop goes on. *)
Definition notifyObservers (event : string) (data : Task) : M unit :=
  s ← get;
  for_each (observers s) (λ observer,
    modify (set_trace (λ tr, tr ++ [(obs_id observer, event, data)]));;
    match obs_call observer event data with
    | None => mret tt
    | Some e =>
        modify (set_stdout (λ out, out ++ ["Observer error: " +:+ str_exn e]))
    end).

Definition addObserver (callback : Observer) : M unit :=
  modify (set_observers (λ obs, obs ++ [callback])).

(** [list.remove]: the first element equal to the argument goes. *)
Fixpoint list_remove (callback : Observer) (obs : list Observer) : list Observer :=
  match obs with
  | [] => []
  | o :: obs' =>
      if Nat.eqb (obs_id o) (obs_id callback) then obs'
      else o :: list_remove callback obs'
  end.

Definition removeObserver (callback : Observer) : M unit :=
  s ← get;
  if existsb (λ o, Nat.eqb (obs_id o) (obs_id callback)) (observers s)
  then modify (set_observers (list_remove callback))
  else mret tt.

(** One deferred lambda of [getTasksByPriority], run by the event loop:
    [results.append(self.tasks[i]) if self.tasks[i]['priority'] == priority
    else None], on the manager and on [i] as they are when the loop gets
    to it.  An exception goes to the loop's exception handler. *)
Definition run_callback (cb : Callback) : M unit :=
  s ← get;
  let i := default 0%nat (cells s !! cb_i cb) in
  match tasks s !! i with
  | None =>
      modify (set_loop_errors (λ es, es ++ [IndexError "list index out of range"]))
  | Some t =>
      match t !! "priority" with
      | None => modify (set_loop_errors (λ es, es ++ [KeyError "priority"]))
      | Some p =>
          if py_eq p (cb_priority cb)
          then modify (set_heap (alter (λ results, results ++ [t]) (cb_results cb)))
          else mret tt
      end
  end.

(** The event loop takes over (at an [await] that suspends): it runs what
    is in its ready queue. *)
Definition run_ready : M unit :=
  s ← get;
  modify (set_ready (λ _, []));;
  for_each (ready s) run_callback.

(** [await asyncio.sleep(0.1)]: the coroutine is suspended and the loop
    runs the callbacks that are ready. *)
Definition asyncio_sleep : M unit := run_ready.

(** [x.__len__()]: strings and lists have it. *)
Definition py_len (v : value) : result Z :=
  match v with
  | VStr s => Ok (Z.of_nat (String.length s))
  | VList l => Ok (Z.of_nat (length l))
  | _ => Raise (no_attribute v "__len__")
  end.

(** [validateTask]: line 30 reads
    [not title or (title.__len__() == 0 and (title.__len__() == 0) == 0)]. *)
Definition validateTask (task : Task) : M bool :=
  asyncio_sleep;;
  title ← lift (subscript task "title");
  if negb (truthy title) then raise (Exception (ArgBool false))
  else
    n ← lift (py_len title);
    if (n =? 0) && py_eq (VBool (n =? 0)) (VInt 0)
    then raise (Exception (ArgBool false))
    else mret true.

(** [datetime.datetime.fromisoformat(dueDate) if dueDate else None]. *)
Definition parse_dueDate (dueDate : value) : result value :=
  if truthy dueDate then
    match dueDate with
    | VStr s =>
        match fromisoformat s with
        | Ok (Naive t) => Ok (VDate t)
        | Ok (Aware utc offset) => Ok (VAware utc offset)
        | Raise e => Raise e
        end
    | _ => Raise (TypeError "fromisoformat: argument must be str")
    end
  else Ok VNone.

(** [addTask(title, priority='medium', dueDate=None)]; an argument the
    caller leaves out is [None] here and takes its default. *)
Definition addTask (title : value) (priority dueDate : option value) : M Task :=
  let priority := default (VStr "medium") priority in
  let dueDate := default VNone dueDate in
  s ← get;
  due ← lift (parse_dueDate dueDate);
  now ← datetime_now;
  let task : Task :=
    <["createdAt" := VDate now]>
    (<["completed" := VBool false]>
    (<["dueDate" := due]>
    (<["priority" := priority]>
    (<["title" := title]>
    (<["id" := VInt (idCounter s + 1)]> ∅))))) in
  modify (set_idCounter (λ c, c + 1));;
  isValid ← validateTask task;
  if (isValid : bool) then
    (modify (set_tasks (λ ts, ts ++ [task]));;
     notifyObservers "taskAdded" task;;
     mret task : M Task)
  else raise (Exception (ArgStr "Invalid task")).

(** [next((i for i, t in enumerate(self.tasks) if t['id'] == taskId), -1)]:
    the first position whose task has that id, [None] for the default. *)
Fixpoint find_index (taskId : value) (ts : list Task) (i : nat) : result (option nat) :=
  match ts with
  | [] => Ok None
  | t :: ts' =>
      id ← subscript t "id";
      if py_eq id taskId then Ok (Some i) else find_index taskId ts' (S i)
  end.

Definition completeTask (taskId : value) : M (option Task) :=
  s ← get;
  taskIndex ← lift (find_index taskId (tasks s) 0);
  match taskIndex with
  | Some i =>
      match tasks s !! i with
      | Some task =>
          now ← datetime_now;
          let task := <["completedAt" := VDate now]> (<["completed" := VBool true]> task) in
          modify (set_completedTasks (λ cs, cs ++ [task]));;
          modify (set_tasks (delete i));;
          notifyObservers "taskCompleted" task;;
          mret (Some task)
      | None => raise (IndexError "list index out of range")
      end
  | None => mret None
  end.

(** [loop.call_soon(callback)]. *)
Definition call_soon (cb : Callback) : M unit :=
  modify (set_ready (λ q, q ++ [cb])).

(** [getTasksByPriority]: the list [results] is made, one lambda per index
    is queued on the event loop, and [results] is returned.  The value is
    the address of the list; [deref] reads what it holds. *)
Definition getTasksByPriority (priority : value) : M nat :=
  s ← get;
  let results := length (heap s) in
  let i := length (cells s) in
  modify (set_heap (λ h, h ++ [[]]));;
  modify (set_cells (λ c, c ++ [0%nat]));;
  for_each (seq 0 (length (tasks s))) (λ n,
    modify (set_cells (<[i := n]>));;
    call_soon {| cb_results := results; cb_i := i; cb_priority := priority |});;
  mret results.

Definition deref (results : nat) (s : State) : list Task :=
  default [] (heap s !! results).

(** [next((t for t in self.tasks if t['id'] == taskId), None)], with the
    position of the task found, which is where the assignments land. *)
Fixpoint find_task (taskId : value) (ts : list Task) (i : nat)
    : result (option (nat * Task)) :=
  match ts with
  | [] => Ok None
  | t :: ts' =>
      id ← subscript t "id";
      if py_eq id taskId then Ok (Some (i, t)) else find_task taskId ts' (S i)
  end.

(** [for key in updates: task[key] = updates[key]]. *)
Definition assign_all (updates task : Task) : Task :=
  map_fold (λ key v acc, <[key := v]> acc) task updates.

Definition updateTask (taskId : value) (updates : Task) : M unit :=
  s ← get;
  found ← lift (find_task taskId (tasks s) 0);
  match found with
  | Some (i, task) =>
      if bool_decide (task ≠ ∅) then
        let task := assign_all updates task in
        modify (set_tasks (<[i := task]>));;
        notifyObservers "taskUpdated" task
      else mret tt
  | None => mret tt
  end.

(** The condition of the comprehension in [getOverdueTasks]:
    [t['dueDate'] and t['dueDate'] < now and not t['completed']], where
    [now] is naive: an aware [datetime] does not compare with it, and a
    value of another kind does not compare with a [datetime]. *)
Definition is_overdue (now : Z) (t : Task) : result bool :=
  due ← subscript t "dueDate";
  if negb (truthy due) then Ok false
  else
    match due with
    | VDate d =>
        if d <? now then
          c ← subscript t "completed";
          Ok (negb (truthy c))
        else Ok false
    | VAware _ _ =>
        Raise (TypeError "can't compare offset-naive and offset-aware datetimes")
    | _ =>
        Raise (TypeError ("'<' not supported between instances of '"
                          +:+ type_name due +:+ "' and 'datetime.datetime'"))
    end.

(** [key=lambda x: x['dueDate']] on the tasks the comprehension kept,
    whose [dueDate] is a [datetime]. *)
Definition dueDate_key (t : Task) : Z :=
  match t !! "dueDate" with
  | Some (VDate d) => d
  | _ => 0
  end.

Definition getOverdueTasks : M (list Task) :=
  now ← datetime_now;
  s ← get;
  kept ← lift (comprehension (is_overdue now) (tasks s));
  mret (sorted dueDate_key kept).

(** [{'error': str(e)}]. *)
Definition error_descriptor (e : exn) : Task := {["error" := VStr (str_exn e)]}.

(** The loop of [bulkAddTasks] over the coroutine objects: each one runs
    when it is awaited. *)
Fixpoint await_each (promises : list (M Task)) (results : list Task) : M (list Task) :=
  match promises with
  | [] => mret results
  | p :: promises' =>
      r ← try_except p (λ e, mret (error_descriptor e));
      await_each promises' (results ++ [r])
  end.

(** [self.addTask(d.get('title'), d.get('priority'), d.get('dueDate'))]:
    a coroutine object, which has not run yet. *)
Definition addTask_of (d : Task) : M Task :=
  addTask (dict_get d "title" VNone)
          (Some (dict_get d "priority" VNone))
          (Some (dict_get d "dueDate" VNone)).

Definition bulkAddTasks (taskData : list Task) : M (list Task) :=
  let promises := map addTask_of taskData in
  await_each promises [].

Definition getTaskStats : M Stats :=
  s ← get;
  overdueTasks ← getOverdueTasks;
  let len_tasks := Z.of_nat (length (tasks s)) in
  let len_completed := Z.of_nat (length (completedTasks s)) in
  (* calculateCompletionRate() *)
  q ← lift (truediv len_completed (len_tasks + len_completed));
  mret {| total := len_tasks + len_completed;
          completed := len_completed;
          pending := len_tasks;
          overdue := Z.of_nat (length overdueTasks);
          completionRate := PrimFloat.mul q (float_of_Z 100) |}.

(** [x.lower()]; of the values only strings have the method. *)
Definition py_lower (v : value) : result string :=
  match v with
  | VStr s => Ok (str_lower s)
  | _ => Raise (no_attribute v "lower")
  end.

(** The condition of the comprehension in [searchTasks]:
    [query.lower() in t['title'].lower()
     or query.lower() in t.get('description', '').lower()]. *)
Definition search_match (query : string) (t : Task) : result bool :=
  title ← subscript t "title";
  title_l ← py_lower title;
  if contains (str_lower query) title_l then Ok true
  else
    description_l ← py_lower (dict_get t "description" (VStr ""));
    Ok (contains (str_lower query) description_l).

Definition searchTasks (query : string) : M (list Task) :=
  s ← get;
  lift (comprehension (search_match query) (tasks s)).

End TaskManager.

(** ** A parser and a clock to run the methods on concrete inputs *)

Definition digit (c : ascii) : option Z :=
  let n := nat_of_ascii c in
  if (48 <=? n)%nat && (n <=? 57)%nat then Some (Z.of_nat (n - 48)) else None.

Definition is_leap (y : Z) : bool :=
  ((y mod 4 =? 0) && negb (y mod 100 =? 0)) || (y mod 400 =? 0).

Definition days_in_month (y m : Z) : Z :=
  if m =? 2 then (if is_leap y then 29 else 28)
  else if (m =? 4) || (m =? 6) || (m =? 9) || (m =? 11) then 30
  else 31.

(** Days from 1970-01-01 to the civil date [y-m-d]. *)
Definition days_from_civil (y m d : Z) : Z :=
  let y' := if m <=? 2 then y - 1 else y in
  let era := y' / 400 in
  let yoe := y' - era * 400 in
  let mp := (m + 9) mod 12 in
  let doy := (153 * mp + 2) / 5 + d - 1 in
  let doe := yoe * 365 + yoe / 4 - yoe / 100 + doy in
  era * 146097 + doe - 719468.

Definition microseconds_per_day : Z := 86400000000.

Definition two_digits (a b : ascii) : option Z :=
  match digit a, digit b with
  | Some x, Some y => Some (10 * x + y)
  | _, _ => None
  end.

(** The calendar date [YYYY-MM-DD], as days from 1970-01-01. *)
Definition parse_date (cs : list ascii) (invalid : exn) : result Z :=
  match cs with
  | [y1; y2; y3; y4; h1; m1; m2; h2; d1; d2] =>
      match two_digits y1 y2, two_digits y3 y4, two_digits m1 m2, two_digits d1 d2 with
      | Some c, Some y, Some m, Some dd =>
          let y := 100 * c + y in
          if Ascii.eqb h1 "-" && Ascii.eqb h2 "-" then
            if y =? 0 then Raise (ValueError "year 0 is out of range")
            else if negb ((1 <=? m) && (m <=? 12))
            then Raise (ValueError "month must be in 1..12")
            else if negb ((1 <=? dd) && (dd <=? days_in_month y m))
            then Raise (ValueError "day is out of range for month")
            else Ok (days_from_civil y m dd)
          else Raise invalid
      | _, _, _, _ => Raise invalid
      end
  | _ => Raise invalid
  end.

(** The time of day [THH:MM:SS], in microseconds; midnight when left out. *)
Definition parse_time (cs : list ascii) (invalid : exn) : result Z :=
  match cs with
  | [] => Ok 0
  | [t; h1; h2; c1; m1; m2; c2; s1; s2] =>
      match two_digits h1 h2, two_digits m1 m2, two_digits s1 s2 with
      | Some h, Some m, Some sec =>
          if Ascii.eqb t "T" && Ascii.eqb c1 ":" && Ascii.eqb c2 ":" then
            if negb (h <=? 23) then Raise (ValueError "hour must be in 0..23")
            else if negb (m <=? 59) then Raise (ValueError "minute must be in 0..59")
            else if negb (sec <=? 59) then Raise (ValueError "second must be in 0..59")
            else Ok (((h * 60 + m) * 60 + sec) * 1000000)
          else Raise invalid
      | _, _, _ => Raise invalid
      end
  | _ => Raise invalid
  end.

(** The UTC offset [+HH:MM] or [-HH:MM], in microseconds, when there is
    one. *)
Definition parse_offset (cs : list ascii) (invalid : exn) : result (option Z) :=
  match cs with
  | [] => Ok None
  | [sign; h1; h2; c; m1; m2] =>
      match two_digits h1 h2, two_digits m1 m2 with
      | Some h, Some m =>
          if Ascii.eqb c ":" && (h <=? 23) && (m <=? 59) then
            if Ascii.eqb sign "+" then Ok (Some ((h * 60 + m) * 60000000))
            else if Ascii.eqb sign "-" then Ok (Some (- ((h * 60 + m) * 60000000)))
            else Raise invalid
          else Raise invalid
      | _, _ => Raise invalid
      end
  | _ => Raise invalid
  end.

(** [fromisoformat] on the strings [YYYY-MM-DD], [YYYY-MM-DDTHH:MM:SS] and
    [YYYY-MM-DDTHH:MM:SS+HH:MM]: a naive [datetime] without offset, an
    aware one with it; every other string is refused, the empty one
    included. *)
Definition fromisoformat_date (s : string) : result datetime :=
  let invalid := ValueError ("Invalid isoformat string: " +:+ repr_str s) in
  let cs := list_ascii_of_string s in
  days ← parse_date (take 10 cs) invalid;
  time ← parse_time (take 9 (drop 10 cs)) invalid;
  offset ← parse_offset (drop 19 cs) invalid;
  let local := days * microseconds_per_day + time in
  match offset with
  | None => Ok (Naive local)
  | Some off => Ok (Aware (local - off) off)
  end.

(** A clock that starts at [t0] and advances by a microsecond per read. *)
Definition clock_from (t0 : Z) : nat → Z := λ n, t0 + Z.of_nat n.

(** Noon of 2025-06-01. *)
Definition t2025 : Z := days_from_civil 2025 6 1 * microseconds_per_day + 43200000000.

(** Running a method: the state it leaves, and its result. *)
Definition exec {A} (m : M A) (s : State) : State := snd (m s).
Definition eval {A} (m : M A) (s : State) : result A := fst (m s).

(** The state [s] with the event loop's part replaced. *)
Definition with_loop (q : list Callback) (h : list (list Task)) (es : list exn)
    (s : State) : State :=
  {| tasks := tasks s; completedTasks := completedTasks s;
     observers := observers s; idCounter := idCounter s; ticks := ticks s;
     trace := trace s; stdout := stdout s; ready := q; heap := h;
     cells := cells s; loop_errors := es |}.

(** What [notifyObservers event data] adds to the call log and to standard
    output. *)
Definition notify_calls (event : string) (data : Task) (obs : list Observer)
    : list (nat * string * Task) :=
  map (λ o, (obs_id o, event, data)) obs.

Definition notify_prints (event : string) (data : Task) (obs : list Observer)
    : list string :=
  omap (λ o, (λ e, "Observer error: " +:+ str_exn e) <$> obs_call o event data) obs.

Definition notified (calls : list (nat * string * Task)) (prints : list string)
    (s : State) : State :=
  set_stdout (λ out, out ++ prints) (set_trace (λ tr, tr ++ calls) s).

(** ** Statements about one call *)

(** The outcome [r] of a call made in state [s] is a failure that left the
    id counter, both collections and the observers' call log as they were. *)
Definition fails_untouched {A} (r : result A * State) (s : State) : Prop :=
  (∃ e, r.1 = Raise e) ∧
  idCounter r.2 = idCounter s ∧
  tasks r.2 = tasks s ∧
  completedTasks r.2 = completedTasks s ∧
  trace r.2 = trace s.

(** The outcome [r] of a call made in state [s] is the failure of
    [validateTask] ([Exception(False)], line 31): nothing was appended, no
    observer was called, and the id counter stays advanced. *)
Definition fails_validation {A} (r : result A * State) (s : State) : Prop :=
  r.1 = Raise (Exception (ArgBool false)) ∧
  tasks r.2 = tasks s ∧
  completedTasks r.2 = completedTasks s ∧
  trace r.2 = trace s ∧
  idCounter r.2 = idCounter s + 1.

(** The keys [addTask] and [completeTask] give a task. *)
Definition task_fields : list string :=
  ["id"; "title"; "priority"; "dueDate"; "completed"; "createdAt"; "completedAt"].

(** The manager after [addTask('Write report', 'high')] on a new one. *)
Definition one_task : State :=
  exec (addTask fromisoformat_date (clock_from t2025)
          (VStr "Write report") (Some (VStr "high")) None) init.

(** [ts[i][key]], when there is such an entry. *)
Definition field (key : string) (i : nat) (ts : list Task) : option value :=
  ts !! i ≫= (.!! key).

(** What [getTasksByPriority] is documented to return: the open tasks of
    that priority, in order. *)
Definition open_with_priority (priority : value) (s : State) : list Task :=
  filter (λ t, t !! "priority" = Some priority) (tasks s).

(** Two open tasks, the first of low and the second of high priority. *)
Definition low_then_high : State :=
  exec (addTask fromisoformat_date (clock_from t2025)
          (VStr "Review code") (Some (VStr "high")) None)
    (exec (addTask fromisoformat_date (clock_from t2025)
             (VStr "Water plants") (Some (VStr "low")) None) init).

(** Two tasks added and both completed. *)
Definition all_completed : State :=
  exec (completeTask (clock_from t2025) (VInt 2))
    (exec (completeTask (clock_from t2025) (VInt 1)) low_then_high).

Definition option_of_result {A} (r : result A) : option A :=
  match r with
  | Ok a => Some a
  | Raise _ => None
  end.

(** ** Statements about the collections *)

(** What one turn of the loop in [bulkAddTasks] appends for the coroutine
    [p] awaited in state [s]: its task, or the descriptor of its failure. *)
Definition settle (p : M Task) (s : State) : Task * State :=
  match p s with
  | (Ok task, s') => (task, s')
  | (Raise e, s') => (error_descriptor e, s')
  end.

Fixpoint settle_all (ps : list (M Task)) (s : State) : list Task * State :=
  match ps with
  | [] => ([], s)
  | p :: ps' =>
      let '(r, s') := settle p s in
      let '(rs, s'') := settle_all ps' s' in
      (r :: rs, s'')
  end.

(** The fields [getOverdueTasks] reads are of the kinds [addTask] gives
    them when the due date has no UTC offset: [dueDate] is [None] or a
    naive [datetime], [completed] is a boolean. *)
Definition well_typed (t : Task) : Prop :=
  (t !! "dueDate" = Some VNone ∨ ∃ d, t !! "dueDate" = Some (VDate d)) ∧
  ∃ b, t !! "completed" = Some (VBool b).

(** The task has a due date strictly before [now] and is not completed. *)
Definition overdue_at (now : Z) (t : Task) : Prop :=
  ∃ d, t !! "dueDate" = Some (VDate d) ∧ d < now ∧
       t !! "completed" = Some (VBool false).

Definition overdue_atb (now : Z) (t : Task) : bool :=
  match t !! "dueDate", t !! "completed" with
  | Some (VDate d), Some (VBool false) => d <? now
  | _, _ => false
  end.

(** [a] is due no later than [b]. *)
Definition due_le (a b : Task) : Prop :=
  ∃ x y, a !! "dueDate" = Some (VDate x) ∧ b !! "dueDate" = Some (VDate y) ∧ x ≤ y.

(** The fields [searchTasks] reads are strings where present. *)
Definition searchable (t : Task) : Prop :=
  (∃ title, t !! "title" = Some (VStr title)) ∧
  (t !! "description" = None ∨ ∃ d, t !! "description" = Some (VStr d)).

(** The entries under [key] of the dictionaries of a list, in order. *)
Definition column (key : string) (ts : list Task) : list (option value) :=
  (.!! key) <$> ts.

(** The ids of a collection, in order. *)
Definition ids (ts : list Task) : list (option value) := column "id" ts.

(** [taskId] is the id of [t], as [==] sees it. *)
Definition names (taskId : value) (t : Task) : Prop :=
  ∃ v, t !! "id" = Some v ∧ py_eq v taskId = true.

(** An id the manager holds is in exactly one of the two collections. *)
Definition one_collection_per_id (s : State) : Prop :=
  ∀ v, Some v ∈ ids (tasks s ++ completedTasks s) →
    (Some v ∈ ids (tasks s) ∧ (Some v ∉ ids (completedTasks s))) ∨
    ((Some v ∉ ids (tasks s)) ∧ Some v ∈ ids (completedTasks s)).

(** ** Sequences of calls *)

Inductive op :=
| AddTask (title : value) (priority dueDate : option value)
| BulkAddTasks (taskData : list Task)
| CompleteTask (taskId : value)
| UpdateTask (taskId : value) (updates : Task)
| AddObserver (callback : Observer)
| RemoveObserver (callback : Observer)
| GetTasksByPriority (priority : value)
| GetOverdueTasks
| GetTaskStats
| SearchTasks (query : string)
| RunLoop.

Section Calls.
Variable fromisoformat : string → result datetime.
Variable clock : nat → Z.
Variable str_lower : string → string.

(** The state a call leaves, whether it returns or raises. *)
Definition perform (o : op) (s : State) : State :=
  match o with
  | AddTask title priority dueDate =>
      exec (addTask fromisoformat clock title priority dueDate) s
  | BulkAddTasks taskData => exec (bulkAddTasks fromisoformat clock taskData) s
  | CompleteTask taskId => exec (completeTask clock taskId) s
  | UpdateTask taskId updates => exec (updateTask taskId updates) s
  | AddObserver callback => exec (addObserver callback) s
  | RemoveObserver callback => exec (removeObserver callback) s
  | GetTasksByPriority priority => exec (getTasksByPriority priority) s
  | GetOverdueTasks => exec (getOverdueTasks clock) s
  | GetTaskStats => exec (getTaskStats clock) s
  | SearchTasks query => exec (searchTasks str_lower query) s
  | RunLoop => exec run_ready s
  end.

(** The manager after the calls [ops], made in that order on a new one. *)
Definition after (ops : list op) : State := foldl (λ s o, perform o s) init ops.
End Calls.

(** The call does not assign the key [id] of a task. *)
Definition keeps_ids (o : op) : Prop :=
  match o with
  | UpdateTask _ updates => updates !! "id" = None
  | _ => True
  end.

Definition well_typedb (t : Task) : bool :=
  match t !! "dueDate", t !! "completed" with
  | Some VNone, Some (VBool _) | Some (VDate _), Some (VBool _) => true
  | _, _ => false
  end.

(** Three open tasks: due 2024-03-01, without a due date, due 2024-01-15. *)
Definition three_tasks : State :=
  exec (addTask fromisoformat_date (clock_from t2025)
          (VStr "File taxes") (Some (VStr "high")) (Some (VStr "2024-01-15")))
    (exec (addTask fromisoformat_date (clock_from t2025)
             (VStr "Read book") None None)
       (exec (addTask fromisoformat_date (clock_from t2025)
                (VStr "Write report") (Some (VStr "high")) (Some (VStr "2024-03-01")))
          init)).

(** The condition of [searchTasks] on a task whose fields are strings. *)
Definition matchesb (str_lower : string → string) (query : string) (t : Task) : bool :=
  match t !! "title", dict_get t "description" (VStr "") with
  | Some (VStr title), VStr description =>
      contains (str_lower query) (str_lower title)
      || contains (str_lower query) (str_lower description)
  | _, _ => false
  end.

(** The ids of the two collections are integers the counter has reached,
    each held by one task. *)
Definition ids_consistent (s : State) : Prop :=
  NoDup (ids (tasks s ++ completedTasks s)) ∧
  Forall (λ o, ∃ n, o = Some (VInt n) ∧ n ≤ idCounter s)
         (ids (tasks s ++ completedTasks s)).

(** Calls after which an id is in both collections. *)
Definition id_overwritten : list op :=
  [ AddTask (VStr "A") None None;
    AddTask (VStr "B") None None;
    CompleteTask (VInt 1);
    UpdateTask (VInt 2) {["id" := VInt 1]} ].

(** Calls that leave the ids alone. *)
Definition plain_calls : list op :=
  [ AddTask (VStr "A") None None;
    AddTask (VStr "") None None;
    AddTask (VStr "B") (Some (VStr "high")) (Some (VStr "2024-01-15"));
    UpdateTask (VInt 3) {["title" := VStr "C"]};
    CompleteTask (VInt 1);
    GetTasksByPriority (VStr "high");
    RunLoop ].

(** The dictionary [addTask] builds in state [s]. *)
Definition new_task (clock : nat → Z) (s : State) (title priority due : value) : Task :=
  <["createdAt" := VDate (clock (ticks s))]>
  (<["completed" := VBool false]>
  (<["dueDate" := due]>
  (<["priority" := priority]>
  (<["title" := title]>
  (<["id" := VInt (idCounter s + 1)]> ∅))))).

(** The task as [completeTask], called in state [s], leaves it. *)
Definition completed_at (clock : nat → Z) (s : State) (t : Task) : Task :=
  <["completedAt" := VDate (clock (ticks s))]> (<["completed" := VBool true]> t).

(** Two observers, the first of which raises on every call. *)
Definition failing_observer : Observer :=
  {| obs_id := 0; obs_call := λ _ _, Some (ValueError "boom") |}.

Definition quiet_observer : Observer :=
  {| obs_id := 1; obs_call := λ _ _, None |}.

Definition two_observers : State :=
  exec (addObserver quiet_observer) (exec (addObserver failing_observer) init).

(** The manager of [one_task] after [updateTask(1, {'dueDate': '2024-02-01'})]:
    the due date is now a string. *)
Definition string_dueDate : State :=
  exec (updateTask (VInt 1) {["dueDate" := VStr "2024-02-01"]}) one_task.

(** The manager after
    [addTask('Pay rent', 'high', '2024-01-15T09:00:00+01:00')]: the due
    date is an aware [datetime]. *)
Definition aware_dueDate : State :=
  exec (addTask fromisoformat_date (clock_from t2025)
          (VStr "Pay rent") (Some (VStr "high")) (Some (VStr "2024-01-15T09:00:00+01:00")))
       init.

(** The three tasks, watched by the two observers. *)
Definition watched_tasks : State :=
  exec (addObserver quiet_observer) (exec (addObserver failing_observer) three_tasks).

(** A third observer, which returns on every call. *)
Definition late_observer : Observer :=
  {| obs_id := 2; obs_call := λ _ _, None |}.

(** No task of [ts] has an id equal to [taskId]. *)
Definition no_such_id (taskId : value) (ts : list Task) : bool :=
  forallb (λ t, match t !! "id" with
                | Some v => negb (py_eq v taskId)
                | None => false
                end) ts.

(** ** What a call can do to the collections *)

(** The four ways in which a call changes the two collections and the
    counter: not at all but for spending ids, by appending a new task, by
    moving an open task to the completed collection, by patching an open
    task in place.  With [ids_kept] the patches are those without the key
    [id]. *)
Inductive step (clock : nat → Z) (ids_kept : bool) : State → State → Prop :=
| step_frame s s' :
    tasks s' = tasks s → completedTasks s' = completedTasks s →
    idCounter s ≤ idCounter s' →
    step clock ids_kept s s'
| step_add s s' title priority due :
    tasks s' = tasks s ++ [new_task clock s title priority due] →
    completedTasks s' = completedTasks s →
    idCounter s' = idCounter s + 1 →
    step clock ids_kept s s'
| step_move s s' l1 t l2 :
    tasks s = l1 ++ t :: l2 →
    tasks s' = l1 ++ l2 →
    completedTasks s' = completedTasks s ++ [completed_at clock s t] →
    idCounter s' = idCounter s →
    step clock ids_kept s s'
| step_patch s s' l1 t l2 updates :
    (ids_kept = true → updates !! "id" = None) →
    tasks s = l1 ++ t :: l2 →
    tasks s' = l1 ++ (updates ∪ t) :: l2 →
    completedTasks s' = completedTasks s →
    idCounter s' = idCounter s →
    step clock ids_kept s s'.

(** The id of [a] is an integer below the integer id of [b]. *)
Definition id_lt (a b : option value) : Prop :=
  ∃ n m, a = Some (VInt n) ∧ b = Some (VInt m) ∧ n < m.

(** The entries [addTask] gives every task. *)
Definition has_fields (t : Task) : Prop :=
  Forall (λ k, is_Some (t !! k))
    ["id"; "title"; "priority"; "dueDate"; "completed"; "createdAt"].

(** The number of tasks the manager holds. *)
Definition held (s : State) : Z :=
  Z.of_nat (length (tasks s)) + Z.of_nat (length (completedTasks s)).

(** The open collection is in the order of its ids, none above the counter. *)
Definition open_in_order (s : State) : Prop :=
  StronglySorted id_lt (ids (tasks s)) ∧
  Forall (λ o, ∃ n, o = Some (VInt n) ∧ n ≤ idCounter s) (ids (tasks s)).

(** The task carries the marks [completeTask] leaves. *)
Definition flagged (t : Task) : Prop :=
  t !! "completed" = Some (VBool true) ∧ ∃ d, t !! "completedAt" = Some (VDate d).

(** * Properties *)

Ltac unfold_M :=
  unfold mbind, M_bind, result_bind, bind, mret, M_ret, result_ret, ret, get,
    modify, lift, raise, try_except, exec, eval in *.

Lemma state_eq (s s' : State) :
  tasks s = tasks s' → completedTasks s = completedTasks s' →
  observers s = observers s' → idCounter s = idCounter s' →
  ticks s = ticks s' → trace s = trace s' → stdout s = stdout s' →
  ready s = ready s' → heap s = heap s' → cells s = cells s' →
  loop_errors s = loop_errors s' → s = s'.
Proof. destruct s, s'; simpl; intros; subst; reflexivity. Qed.

Lemma notified_nil s : notified [] [] s = s.
Proof. apply state_eq; simpl; auto using app_nil_r. Qed.

Lemma notified_app c1 p1 c2 p2 s :
  notified c2 p2 (notified c1 p1 s) = notified (c1 ++ c2) (p1 ++ p2) s.
Proof. apply state_eq; simpl; auto using app_assoc. Qed.

Section Notify.
Variable event : string.
Variable data : Task.

Lemma for_each_observers (obs : list Observer) (s : State) :
  for_each obs (λ observer,
    modify (set_trace (λ tr, tr ++ [(obs_id observer, event, data)]));;
    match obs_call observer event data with
    | None => mret tt
    | Some e =>
        modify (set_stdout (λ out, out ++ ["Observer error: " +:+ str_exn e]))
    end) s
  = (Ok tt, notified (notify_calls event data obs) (notify_prints event data obs) s).
Proof.
  revert s; induction obs as [|o obs IH]; intros s.
  - simpl. unfold_M. by rewrite notified_nil.
  - simpl. unfold_M. destruct (obs_call o event data) as [e|] eqn:Ho.
    + rewrite IH. f_equal. apply state_eq; simpl; rewrite ?Ho; simpl;
        auto using app_assoc.
      all: by rewrite <- ?app_assoc.
    + rewrite IH. f_equal. apply state_eq; simpl; rewrite ?Ho; simpl; auto.
      all: by rewrite <- ?app_assoc.
Qed.

Lemma notifyObservers_run (s : State) :
  notifyObservers event data s
  = (Ok tt, notified (notify_calls event data (observers s))
                     (notify_prints event data (observers s)) s).
Proof. unfold notifyObservers. unfold_M. apply for_each_observers. Qed.
End Notify.

(** ** The event loop touches only its own part of the state *)

Lemma with_loop_id s : with_loop (ready s) (heap s) (loop_errors s) s = s.
Proof. by apply state_eq. Qed.

Lemma with_loop_with_loop q h es q' h' es' s :
  with_loop q' h' es' (with_loop q h es s) = with_loop q' h' es' s.
Proof. by apply state_eq. Qed.

Lemma run_callback_run cb s :
  ∃ h es, run_callback cb s = (Ok tt, with_loop (ready s) h es s).
Proof.
  unfold run_callback. unfold_M.
  destruct (tasks s !! default 0%nat (cells s !! cb_i cb)) as [t|].
  - destruct (t !! "priority") as [p|].
    + destruct (py_eq p (cb_priority cb)).
      * by eexists _, (loop_errors s).
      * exists (heap s), (loop_errors s). by rewrite with_loop_id.
    + by eexists (heap s), _.
  - by eexists (heap s), _.
Qed.

Lemma for_each_run_callback cbs s :
  ∃ h es, for_each cbs run_callback s = (Ok tt, with_loop (ready s) h es s).
Proof.
  revert s; induction cbs as [|cb cbs IH]; intros s; simpl.
  - exists (heap s), (loop_errors s). unfold_M. by rewrite with_loop_id.
  - unfold_M. destruct (run_callback_run cb s) as (h & es & ->).
    destruct (IH (with_loop (ready s) h es s)) as (h' & es' & ->).
    exists h', es'. by rewrite with_loop_with_loop.
Qed.

Lemma run_ready_run s :
  ∃ h es, run_ready s = (Ok tt, with_loop [] h es s).
Proof.
  unfold run_ready. unfold_M.
  destruct (for_each_run_callback (ready s) (set_ready (λ _, []) s)) as (h & es & ->).
  by exists h, es.
Qed.

(** ** validateTask and addTask, case by case *)

(** The truth value of strings and lists, and which values have a length. *)
Lemma truthy_VStr (t : string) : truthy (VStr t) = true ↔ t ≠ "".
Proof.
  simpl. destruct (String.eqb_spec t ""); simpl; split; intros; congruence.
Qed.

Lemma truthy_VList (l : list value) : truthy (VList l) = true ↔ l ≠ [].
Proof. by destruct l. Qed.

Lemma has_len_py_len (v : value) : has_len v = true ↔ ∃ n, py_len v = Ok n.
Proof. destruct v; simpl; split; try done; try (by eexists); by intros [? ?]. Qed.

Section AddTask.
Variable fromisoformat : string → result datetime.
Variable clock : nat → Z.

(** A false title raises [Exception(False)]; a true one passes
    [validateTask] when it has [__len__] and raises [AttributeError]
    otherwise. *)
Lemma validateTask_run (task : Task) (title : value) (s : State) :
  task !! "title" = Some title →
  ∃ h es,
    validateTask task s
    = (if truthy title then
         if has_len title then Ok true else Raise (no_attribute title "__len__")
       else Raise (Exception (ArgBool false)), with_loop [] h es s).
Proof.
  intros Ht. unfold validateTask, asyncio_sleep. unfold_M.
  destruct (run_ready_run s) as (h & es & ->). exists h, es.
  unfold subscript. rewrite Ht.
  destruct title as [|b|z|t|d|u o|l]; simpl; try done.
  - by destruct b.
  - by destruct (z =? 0).
  - destruct (String.eqb t "") eqn:E; simpl; [done|].
    destruct t; [done|]. simpl. done.
  - by destruct l.
Qed.

Lemma new_task_title s title priority due :
  new_task clock s title priority due !! "title" = Some title.
Proof. unfold new_task. by simplify_map_eq. Qed.

(** A due date that does not evaluate: [addTask] raises what the
    expression raised and nothing has happened yet. *)
Lemma addTask_dueDate_raises title priority dueDate e s :
  parse_dueDate fromisoformat (default VNone dueDate) = Raise e →
  addTask fromisoformat clock title priority dueDate s = (Raise e, s).
Proof. intros H. unfold addTask. unfold_M. by rewrite H. Qed.

(** Past the due date, the counter and the clock have advanced and the
    outcome is that of [validateTask]. *)
Lemma addTask_run title priority dueDate due s :
  parse_dueDate fromisoformat (default VNone dueDate) = Ok due →
  let task := new_task clock s title (default (VStr "medium") priority) due in
  ∃ h es,
    addTask fromisoformat clock title priority dueDate s
    = if truthy title && has_len title then
        (Ok task,
         notified (notify_calls "taskAdded" task (observers s))
                  (notify_prints "taskAdded" task (observers s))
           (set_tasks (λ ts, ts ++ [task])
              (with_loop [] h es (set_idCounter (λ c, c + 1) (set_ticks S s)))))
      else
        (Raise (if truthy title then no_attribute title "__len__"
                else Exception (ArgBool false)),
         with_loop [] h es (set_idCounter (λ c, c + 1) (set_ticks S s))).
Proof.
  intros H task. unfold addTask, datetime_now. unfold_M. rewrite H. simpl.
  fold (new_task clock s title (default (VStr "medium") priority) due). fold task.
  destruct (validateTask_run task title
              (set_idCounter (λ c, c + 1) (set_ticks S s))) as (h & es & Hv).
  { apply new_task_title. }
  rewrite Hv. exists h, es.
  destruct (truthy title); simpl; [|done].
  destruct (has_len title); simpl; [|done].
  by rewrite notifyObservers_run.
Qed.
End AddTask.

(** ** addTask: the failures *)

Section AddTaskFailures.
Variable fromisoformat : string → result datetime.
Variable clock : nat → Z.

(** C9, as amended: for every [addTask] call whose [dueDate] is a
    non-empty string that [fromisoformat] refuses, the call raises the
    parser's exception before anything else happens: the state, and with
    it the id counter, both collections and the observers' call log, is
    the one the call found. *)
Theorem addTask_unparsable_dueDate
    (title : value) (priority : option value) (str : string) (e : exn) (s : State) :
  str ≠ "" →
  fromisoformat str = Raise e →
  addTask fromisoformat clock title priority (Some (VStr str)) s = (Raise e, s) ∧
  fails_untouched (addTask fromisoformat clock title priority (Some (VStr str)) s) s.
Proof.
  intros Hne He.
  assert (H : addTask fromisoformat clock title priority (Some (VStr str)) s
              = (Raise e, s)).
  { apply addTask_dueDate_raises. simpl. unfold parse_dueDate. simpl.
    destruct (String.eqb_spec str ""); [done|]. simpl. by rewrite He. }
  split; [done|]. rewrite H. repeat split; eauto.
Qed.

(** C5, as amended: for every [addTask] call with an empty title whose
    [dueDate] is left out, false or a string that parses, the call fails
    with the exception of [validateTask]; the task is not appended, no
    observer is called and the id counter stays advanced by one. *)
Theorem addTask_empty_title
    (priority dueDate : option value) (due : value) (s : State) :
  parse_dueDate fromisoformat (default VNone dueDate) = Ok due →
  fails_validation (addTask fromisoformat clock (VStr "") priority dueDate s) s.
Proof.
  intros H.
  destruct (addTask_run fromisoformat clock (VStr "") priority dueDate due s H)
    as (h & es & ->).
  simpl. by repeat split.
Qed.
End AddTaskFailures.

(** The empty string is no ISO-8601 date, yet [addTask] takes it for a
    missing due date: the call succeeds, the counter advances and the task
    is in the open collection. *)
Lemma addTask_empty_dueDate_accepted :
  (∃ e, fromisoformat_date "" = Raise e) ∧
  ¬ fails_untouched
      (addTask fromisoformat_date (clock_from t2025)
         (VStr "Review code") None (Some (VStr "")) init) init.
Proof.
  split; [by eexists|].
  intros [_ [H _]]. vm_compute in H. discriminate H.
Qed.

Lemma addTask_unparsable_dueDate_witness :
  addTask fromisoformat_date (clock_from t2025)
     (VStr "Review code") (Some (VStr "medium")) (Some (VStr "invalid-date")) init
  = (Raise (ValueError "Invalid isoformat string: 'invalid-date'"), init) ∧
  fails_untouched
    (addTask fromisoformat_date (clock_from t2025)
       (VStr "Review code") (Some (VStr "medium")) (Some (VStr "invalid-date")) init) init.
Proof.
  apply (addTask_unparsable_dueDate fromisoformat_date (clock_from t2025)
           (VStr "Review code") (Some (VStr "medium")) "invalid-date").
  - discriminate.
  - reflexivity.
Defined.

(** With an empty title and an unparsable due date, the due date fails
    first: the exception is the parser's [ValueError] and the counter has
    not moved. *)
Lemma addTask_empty_title_bad_dueDate :
  eval (addTask fromisoformat_date (clock_from t2025)
          (VStr "") (Some (VStr "low")) (Some (VStr "invalid-date"))) init
  = Raise (ValueError "Invalid isoformat string: 'invalid-date'") ∧
  ¬ fails_validation
      (addTask fromisoformat_date (clock_from t2025)
         (VStr "") (Some (VStr "low")) (Some (VStr "invalid-date")) init) init.
Proof.
  split; [reflexivity|].
  intros [H _]. vm_compute in H. discriminate H.
Qed.

Lemma addTask_empty_title_witness :
  fails_validation
    (addTask fromisoformat_date (clock_from t2025)
       (VStr "") (Some (VStr "low")) (Some (VStr "2024-01-20")) init) init.
Proof.
  apply (addTask_empty_title fromisoformat_date (clock_from t2025)
           (Some (VStr "low")) (Some (VStr "2024-01-20"))
           (VDate 1705708800000000)).
  reflexivity.
Defined.

(** ** updateTask *)

Lemma assign_all_union (updates task : Task) :
  assign_all updates task = updates ∪ task.
Proof.
  unfold assign_all.
  apply (map_fold_weak_ind (λ r m, r = m ∪ task)).
  - by rewrite (left_id_L ∅ (∪)).
  - intros i x m r _ ->. apply insert_union_l.
Qed.

Lemma find_task_Some taskId ts k i t :
  find_task taskId ts k = Ok (Some (i, t)) →
  ∃ j v, i = (k + j)%nat ∧ ts !! j = Some t ∧ t !! "id" = Some v ∧ py_eq v taskId = true.
Proof.
  revert k; induction ts as [|t0 ts IH]; intros k; simpl; [done|].
  unfold subscript. destruct (t0 !! "id") as [v|] eqn:Hid; simpl; [|done].
  destruct (py_eq v taskId) eqn:E.
  - intros [= <- <-]. exists 0%nat, v. by rewrite Nat.add_0_r.
  - intros H. destruct (IH _ H) as (j & w & -> & ? & ? & ?).
    exists (S j), w. split; [lia|done].
Qed.

Section UpdateTask.
Variable taskId : value.
Variable updates : Task.

(** Every key of [updates] lands on the task found, whatever it is. *)
Lemma updateTask_run (s : State) (i : nat) (task : Task) :
  find_task taskId (tasks s) 0 = Ok (Some (i, task)) →
  updateTask taskId updates s
  = (Ok tt,
     notified (notify_calls "taskUpdated" (updates ∪ task) (observers s))
              (notify_prints "taskUpdated" (updates ∪ task) (observers s))
       (set_tasks (<[i := updates ∪ task]>) s)).
Proof.
  intros Hf. unfold updateTask. unfold_M. rewrite Hf.
  destruct (find_task_Some _ _ _ _ _ Hf) as (j & v & _ & _ & Hid & _).
  rewrite bool_decide_true.
  2:{ intros ->. by rewrite lookup_empty in Hid. }
  rewrite assign_all_union. by rewrite notifyObservers_run.
Qed.

Lemma updateTask_not_found (s : State) :
  find_task taskId (tasks s) 0 = Ok None →
  updateTask taskId updates s = (Ok tt, s).
Proof. intros Hf. unfold updateTask. unfold_M. by rewrite Hf. Qed.
End UpdateTask.

(** C1 (the code departs from it): [updateTask(1, {'isAdmin': True})] on a
    manager whose only task has id 1 leaves the key [isAdmin], which is no
    field of a task, on the task. *)
Theorem updateTask_writes_undeclared_key :
  let s' := exec (updateTask (VInt 1) {["isAdmin" := VBool true]}) one_task in
  length (tasks one_task) = 1%nat ∧
  field "id" 0 (tasks one_task) = Some (VInt 1) ∧
  field "isAdmin" 0 (tasks one_task) = None ∧
  ("isAdmin" ∉ task_fields) ∧
  length (tasks s') = 1%nat ∧
  field "isAdmin" 0 (tasks s') = Some (VBool true).
Proof.
  repeat split; try (vm_compute; reflexivity).
  apply (bool_decide_unpack _). vm_compute. reflexivity.
Qed.

(** ** getTasksByPriority *)

Section GetTasksByPriority.
Variable cb : Callback.

(** The [for] loop: [i] ends on the last index and one lambda per index
    is in the queue. *)
Lemma for_each_call_soon (k a : nat) (s : State) :
  for_each (seq a k) (λ n,
    modify (set_cells (<[cb_i cb := n]>));;
    call_soon cb) s
  = (Ok tt,
     set_ready (λ q, q ++ replicate k cb)
       (set_cells (λ c, match k with
                        | O => c
                        | S k' => <[cb_i cb := (a + k')%nat]> c
                        end) s)).
Proof.
  revert a s; induction k as [|k IH]; intros a s; simpl.
  - unfold_M. f_equal. apply state_eq; simpl; auto using app_nil_r.
  - unfold call_soon in *. unfold_M. rewrite IH. f_equal.
    apply state_eq; simpl; auto.
    + by rewrite <- app_assoc.
    + destruct k as [|k]; [by rewrite Nat.add_0_r|].
      rewrite list_insert_insert_eq. f_equal. lia.
Qed.
End GetTasksByPriority.

(** Whatever the open tasks are, the list [getTasksByPriority] returns is
    empty when the call returns; what would fill it is only queued. *)
Lemma getTasksByPriority_run (priority : value) (s : State) :
  ∃ s',
    getTasksByPriority priority s = (Ok (length (heap s)), s') ∧
    deref (length (heap s)) s' = [] ∧
    ready s' = ready s ++ replicate (length (tasks s))
                 {| cb_results := length (heap s); cb_i := length (cells s);
                    cb_priority := priority |} ∧
    tasks s' = tasks s ∧ completedTasks s' = completedTasks s ∧
    idCounter s' = idCounter s ∧ observers s' = observers s.
Proof.
  unfold getTasksByPriority. unfold_M.
  rewrite (for_each_call_soon
             {| cb_results := length (heap s); cb_i := length (cells s);
                cb_priority := priority |}).
  eexists. split; [reflexivity|]. simpl. repeat split.
  unfold deref. simpl. by rewrite lookup_app_r, Nat.sub_diag by lia.
Qed.

(** C2 (the code departs from it): on a manager whose only open task has
    priority [high], [getTasksByPriority('high')] returns an empty list,
    not the list of that task. *)
Theorem getTasksByPriority_returns_empty_list :
  let r := getTasksByPriority (VStr "high") one_task in
  open_with_priority (VStr "high") one_task = tasks one_task ∧
  length (tasks one_task) = 1%nat ∧
  r.1 = Ok 0%nat ∧
  deref 0 r.2 = [].
Proof. repeat split; vm_compute; reflexivity. Qed.

(** When the event loop later runs the queued lambdas, they all read the
    last value of [i]: with a low and then a high priority task, the list
    ends up holding the second task twice. *)
Lemma getTasksByPriority_after_the_loop :
  let r := getTasksByPriority (VStr "high") low_then_high in
  length (tasks low_then_high) = 2%nat ∧
  Some (open_with_priority (VStr "high") low_then_high)
    = (λ b, [b]) <$> tasks low_then_high !! 1%nat ∧
  r.1 = Ok 0%nat ∧
  Some (deref 0 (exec run_ready r.2))
    = (λ b, [b; b]) <$> tasks low_then_high !! 1%nat.
Proof. repeat split; vm_compute; reflexivity. Qed.

(** ** getTaskStats *)

Section GetTaskStats.
Variable clock : nat → Z.

(** C3 (the code departs from it): with both collections empty,
    [getTaskStats] divides by zero and raises [ZeroDivisionError]; no
    completion rate comes back. *)
Theorem getTaskStats_empty_manager (s : State) :
  tasks s = [] → completedTasks s = [] →
  eval (getTaskStats clock) s = Raise (ZeroDivisionError "division by zero").
Proof.
  intros Ht Hc. unfold getTaskStats, getOverdueTasks, datetime_now.
  unfold_M. simpl. rewrite Ht, Hc. reflexivity.
Qed.

(** With a task in one of the collections the division goes through and
    the counts are those of the two lists. *)
Lemma getTaskStats_counts (s : State) (overdueTasks : list Task) :
  eval (getOverdueTasks clock) s = Ok overdueTasks →
  (0 < length (tasks s) + length (completedTasks s))%nat →
  ∃ st,
    eval (getTaskStats clock) s = Ok st ∧
    total st = Z.of_nat (length (tasks s)) + Z.of_nat (length (completedTasks s)) ∧
    completed st = Z.of_nat (length (completedTasks s)) ∧
    pending st = Z.of_nat (length (tasks s)) ∧
    overdue st = Z.of_nat (length overdueTasks) ∧
    completionRate st
    = PrimFloat.mul
        (PrimFloat.div (float_of_Z (completed st)) (float_of_Z (total st)))
        (float_of_Z 100).
Proof.
  intros Ho Hpos. unfold getTaskStats. unfold_M.
  destruct (getOverdueTasks clock s) as [[l|e] s'] eqn:E; simpl in Ho; [|done].
  injection Ho as ->.
  assert (tasks s' = tasks s ∧ completedTasks s' = completedTasks s) as [_ _].
  { unfold getOverdueTasks, datetime_now in E. unfold_M. simpl in E.
    destruct (comprehension _ _); by inversion E. }
  unfold truediv.
  destruct (Z.eqb_spec (Z.of_nat (length (tasks s)) +
                        Z.of_nat (length (completedTasks s))) 0) as [H0|_]; [lia|].
  simpl. eexists. split; [reflexivity|]. by repeat split.
Qed.
End GetTaskStats.

Lemma getTaskStats_empty_manager_witness :
  tasks init = [] ∧ completedTasks init = [] ∧
  eval (getTaskStats (clock_from t2025)) init
  = Raise (ZeroDivisionError "division by zero").
Proof.
  split; [reflexivity|]. split; [reflexivity|].
  apply (getTaskStats_empty_manager (clock_from t2025) init); reflexivity.
Defined.

(** With every task completed the rate is [100.0], with one of two it is
    [50.0]. *)
Example getTaskStats_all_completed :
  completionRate <$> option_of_result (eval (getTaskStats (clock_from t2025)) all_completed)
  = Some 100%float.
Proof. vm_compute. reflexivity. Qed.

Example getTaskStats_half_completed :
  completionRate <$> option_of_result
    (eval (getTaskStats (clock_from t2025))
       (exec (completeTask (clock_from t2025) (VInt 1)) low_then_high))
  = Some 50%float.
Proof. vm_compute. reflexivity. Qed.

(** ** addTask: what a call does to the manager *)

Section AddTaskEffect.
Variable fromisoformat : string → result datetime.
Variable clock : nat → Z.

Lemma addTask_effect (title : value) (priority dueDate : option value) (s : State) :
  let r := addTask fromisoformat clock title priority dueDate s in
  completedTasks r.2 = completedTasks s ∧
  observers r.2 = observers s ∧
  match r.1 with
  | Ok task =>
      ∃ due,
        parse_dueDate fromisoformat (default VNone dueDate) = Ok due ∧
        truthy title = true ∧ has_len title = true ∧
        task = new_task clock s title (default (VStr "medium") priority) due ∧
        tasks r.2 = tasks s ++ [task] ∧
        idCounter r.2 = idCounter s + 1
  | Raise e =>
      tasks r.2 = tasks s ∧
      idCounter s ≤ idCounter r.2 ≤ idCounter s + 1 ∧
      trace r.2 = trace s
  end.
Proof.
  intros r. subst r.
  destruct (parse_dueDate fromisoformat (default VNone dueDate)) as [due|e] eqn:Hd.
  - destruct (addTask_run fromisoformat clock title priority dueDate due s Hd)
      as (h & es & ->).
    destruct (truthy title), (has_len title); simpl; try (repeat split; lia).
    repeat split. by exists due.
  - rewrite (addTask_dueDate_raises fromisoformat clock title priority dueDate e s Hd).
    simpl. repeat split; lia.
Qed.

(** A call that leaves [priority] out yields a task of priority
    [medium]. *)
Lemma addTask_default_priority (title : value) (dueDate : option value)
    (s : State) (task : Task) :
  eval (addTask fromisoformat clock title None dueDate) s = Ok task →
  task !! "priority" = Some (VStr "medium").
Proof.
  intros H. pose proof (addTask_effect title None dueDate s) as (_ & _ & He).
  unfold eval in H. simpl in He. rewrite H in He.
  destruct He as (due & _ & _ & _ & -> & _).
  unfold new_task. by simplify_map_eq.
Qed.

(** C4 (the code departs from it): an item of [bulkAddTasks] without a
    [priority] entry yields a task whose priority is [None]:
    [d.get('priority')] is handed to [addTask] as an argument, so the
    default [medium] does not apply. *)
Theorem bulkAddTasks_missing_priority (d : Task) (title : string) (s : State) :
  d !! "title" = Some (VStr title) → title ≠ "" →
  d !! "priority" = None → d !! "dueDate" = None →
  ∃ task,
    eval (bulkAddTasks fromisoformat clock [d]) s = Ok [task] ∧
    task !! "priority" = Some VNone.
Proof.
  intros Ht Hne Hp Hd. unfold bulkAddTasks. simpl. unfold addTask_of, dict_get.
  rewrite Ht, Hp, Hd. simpl.
  unfold_M.
  destruct (addTask_run fromisoformat clock (VStr title) (Some VNone) (Some VNone)
              VNone s eq_refl) as (h & es & ->).
  rewrite (proj2 (truthy_VStr title) Hne). simpl.
  eexists. split; [reflexivity|]. unfold new_task. by simplify_map_eq.
Qed.
End AddTaskEffect.

Lemma bulkAddTasks_missing_priority_witness :
  ∃ task,
    eval (bulkAddTasks fromisoformat_date (clock_from t2025) [{["title" := VStr "A"]}]) init
    = Ok [task] ∧
    task !! "priority" = Some VNone.
Proof.
  apply (bulkAddTasks_missing_priority fromisoformat_date (clock_from t2025)
           {["title" := VStr "A"]} "A" init).
  - vm_compute; reflexivity.
  - discriminate.
  - vm_compute; reflexivity.
  - vm_compute; reflexivity.
Defined.

(** ** bulkAddTasks *)

Lemma settle_all_length ps s : length (settle_all ps s).1 = length ps.
Proof.
  revert s; induction ps as [|p ps IH]; intros s; simpl; [done|].
  destruct (settle p s) as [r s']. specialize (IH s').
  destruct (settle_all ps s') as [rs s'']. simpl in *. by rewrite IH.
Qed.

(** The [i]-th entry is what the [i]-th coroutine yields in the state the
    first [i] ones have left. *)
Lemma settle_all_lookup ps s i p :
  ps !! i = Some p →
  (settle_all ps s).1 !! i = Some (settle p (settle_all (take i ps) s).2).1.
Proof.
  revert s i; induction ps as [|q ps IH]; intros s i; [done|].
  destruct i as [|i]; simpl.
  - intros [= ->]. destruct (settle p s) as [r s'].
    by destruct (settle_all ps s') as [rs s''].
  - intros Hp. destruct (settle q s) as [r s'].
    specialize (IH s' i Hp).
    destruct (settle_all ps s') as [rs s''].
    by destruct (settle_all (take i ps) s') as [rs' s3].
Qed.

Lemma await_each_run ps acc s :
  await_each ps acc s = (Ok (acc ++ (settle_all ps s).1), (settle_all ps s).2).
Proof.
  revert acc s; induction ps as [|p ps IH]; intros acc s; simpl.
  - unfold_M. by rewrite app_nil_r.
  - unfold_M. unfold settle.
    destruct (p s) as [[task|e] s']; rewrite IH;
      destruct (settle_all ps s') as [rs s'']; simpl; by rewrite <- app_assoc.
Qed.

Section BulkAddTasks.
Variable fromisoformat : string → result datetime.
Variable clock : nat → Z.

Lemma bulkAddTasks_run taskData s :
  bulkAddTasks fromisoformat clock taskData s
  = (Ok (settle_all (map (addTask_of fromisoformat clock) taskData) s).1,
     (settle_all (map (addTask_of fromisoformat clock) taskData) s).2).
Proof. unfold bulkAddTasks. by rewrite await_each_run. Qed.

End BulkAddTasks.

(** The scenario of the specification: of the three items the second has
    an empty title; the result has a task, a descriptor and a task, in that
    order. *)
Example bulkAddTasks_A_empty_B :
  let results :=
    eval (bulkAddTasks fromisoformat_date (clock_from t2025)
            [{["title" := VStr "A"]}; {["title" := VStr ""]}; {["title" := VStr "B"]}])
         init in
  column "title" <$> option_of_result results
  = Some [Some (VStr "A"); None; Some (VStr "B")] ∧
  column "error" <$> option_of_result results
  = Some [None; Some (VStr "False"); None] ∧
  column "id" <$> option_of_result results
  = Some [Some (VInt 1); None; Some (VInt 3)].
Proof. repeat split; vm_compute; reflexivity. Qed.

(** ** Comprehensions and sorting *)

Lemma comprehension_filter {A} (cond : A → result bool) (f : A → bool) (xs : list A) :
  (∀ x, x ∈ xs → cond x = Ok (f x)) →
  comprehension cond xs = Ok (filter (λ x, f x) xs).
Proof.
  induction xs as [|x xs IH]; intros H; simpl; [done|].
  rewrite (H x) by apply list_elem_of_here. simpl.
  rewrite IH by (intros y Hy; apply H; by apply list_elem_of_further). simpl.
  rewrite filter_cons. by destruct (f x).
Qed.

(** A comprehension that evaluates keeps a sublist of its input. *)
Lemma comprehension_sublist {A} (cond : A → result bool) (xs kept : list A) :
  comprehension cond xs = Ok kept → sublist kept xs.
Proof.
  revert kept; induction xs as [|x xs IH]; intros kept; simpl.
  - intros [= <-]. constructor.
  - destruct (cond x) as [b|e]; simpl; [|done].
    destruct (comprehension cond xs) as [rest|e]; simpl; [|done].
    intros [= <-]. destruct b; [apply sublist_skip|apply sublist_cons]; by apply IH.
Qed.

Section Sorted.
Context {A : Type} (key : A → Z).

Lemma insert_by_Permutation x l : insert_by key x l ≡ₚ x :: l.
Proof.
  induction l as [|y l IH]; simpl; [done|].
  destruct (key x <=? key y); [done|]. by rewrite IH, Permutation_swap.
Qed.

Lemma sorted_Permutation l : sorted key l ≡ₚ l.
Proof.
  induction l as [|x l IH]; simpl; [done|].
  by rewrite insert_by_Permutation, IH.
Qed.

Lemma insert_by_StronglySorted x l :
  StronglySorted (λ a b, key a ≤ key b) l →
  StronglySorted (λ a b, key a ≤ key b) (insert_by key x l).
Proof.
  induction 1 as [|y l Hl IH Hy]; simpl.
  - repeat constructor.
  - destruct (Z.leb_spec (key x) (key y)).
    + constructor; [by constructor|]. constructor; [done|].
      eapply Forall_impl; [exact Hy|]. simpl. intros; lia.
    + constructor; [done|].
      rewrite insert_by_Permutation. constructor; [lia|done].
Qed.

Lemma sorted_StronglySorted l : StronglySorted (λ a b, key a ≤ key b) (sorted key l).
Proof.
  induction l as [|x l IH]; simpl; [constructor|].
  by apply insert_by_StronglySorted.
Qed.

(** The sort is stable: among the elements of one key the order is kept. *)
Lemma insert_by_filter (k : Z) x l :
  StronglySorted (λ a b, key a ≤ key b) l →
  filter (λ a, key a = k) (insert_by key x l)
  = filter (λ a, key a = k) (x :: l).
Proof.
  induction 1 as [|y l Hl IH Hy]; simpl; [done|].
  destruct (Z.leb_spec (key x) (key y)); [done|].
  rewrite (filter_cons _ y), IH, !filter_cons.
  destruct (decide (key y = k)), (decide (key x = k)); try done.
  lia.
Qed.

Lemma sorted_stable (k : Z) l :
  filter (λ a, key a = k) (sorted key l) = filter (λ a, key a = k) l.
Proof.
  induction l as [|x l IH]; simpl; [done|].
  rewrite insert_by_filter by apply sorted_StronglySorted.
  by rewrite !filter_cons, IH.
Qed.
End Sorted.

(** ** getOverdueTasks *)

Lemma well_typedb_correct (ts : list Task) :
  forallb well_typedb ts = true → Forall well_typed ts.
Proof.
  induction ts as [|t ts IH]; simpl; [constructor|].
  intros [Ht Hts]%andb_true_iff. constructor; [|by apply IH].
  unfold well_typedb in Ht. unfold well_typed.
  destruct (t !! "dueDate") as [[| | | |d| |]|]; try done;
    destruct (t !! "completed") as [[|b| | | | |]|]; try done; eauto.
Qed.

Lemma is_overdue_well_typed (now : Z) (t : Task) :
  well_typed t → is_overdue now t = Ok (overdue_atb now t).
Proof.
  intros [[Hd|[d Hd]] [b Hc]]; unfold is_overdue, overdue_atb, subscript;
    rewrite Hd, Hc; simpl; [done|].
  destruct (d <? now); simpl; by destruct b.
Qed.

Lemma overdue_atb_spec (now : Z) (t : Task) :
  overdue_atb now t ↔ overdue_at now t.
Proof.
  unfold overdue_atb, overdue_at. split.
  - destruct (t !! "dueDate") as [[| | | |d| |]|]; try done.
    destruct (t !! "completed") as [[|[|]| | | | |]|]; try done.
    intros H%Is_true_true%Z.ltb_lt. by exists d.
  - intros (d & -> & H & ->). by apply Is_true_true, Z.ltb_lt.
Qed.

Lemma overdue_at_key (now : Z) (t : Task) :
  overdue_at now t → t !! "dueDate" = Some (VDate (dueDate_key t)).
Proof. intros (d & H & _). unfold dueDate_key. by rewrite H. Qed.

Lemma StronglySorted_due_le (l : list Task) :
  Forall (λ t, t !! "dueDate" = Some (VDate (dueDate_key t))) l →
  StronglySorted (λ a b, dueDate_key a ≤ dueDate_key b) l →
  StronglySorted due_le l.
Proof.
  intros Hall Hs. induction Hs as [|a l Hs IH Ha]; [constructor|].
  apply Forall_cons in Hall as [Hka Hl].
  constructor; [by apply IH|].
  rewrite Forall_forall in *. intros b Hb.
  exists (dueDate_key a), (dueDate_key b). split_and!; auto.
Qed.

Section GetOverdueTasks.
Variable clock : nat → Z.

(** X24, [getOverdueTasks] on due dates it can compare (lines 73-78): on a
    manager each of whose open tasks has a [dueDate] that is [None] or a
    naive [datetime] and a boolean [completed], the call returns exactly the
    open tasks that have a due date strictly before the time the call
    reads and are not completed, each as often as it is in the open
    collection, in ascending order of due date; a task without due date
    is not among them. *)
Theorem getOverdueTasks_sorted_overdue (s : State) :
  Forall well_typed (tasks s) →
  ∃ l,
    getOverdueTasks clock s = (Ok l, set_ticks S s) ∧
    l ≡ₚ filter (λ t, overdue_atb (clock (ticks s)) t) (tasks s) ∧
    (∀ t, t ∈ l ↔ t ∈ tasks s ∧ overdue_at (clock (ticks s)) t) ∧
    StronglySorted due_le l ∧
    (∀ t, t ∈ l → t !! "dueDate" ≠ Some VNone ∧ t !! "dueDate" ≠ None).
Proof.
  intros Hwt. set (now := clock (ticks s)).
  exists (sorted dueDate_key (filter (λ t, overdue_atb now t) (tasks s))).
  assert (Hin : ∀ t, t ∈ sorted dueDate_key (filter (λ t, overdue_atb now t) (tasks s))
                     ↔ t ∈ tasks s ∧ overdue_at now t).
  { intros t. rewrite sorted_Permutation, list_elem_of_filter, overdue_atb_spec.
    tauto. }
  split_and!.
  - unfold getOverdueTasks, datetime_now. unfold_M. simpl. fold now.
    rewrite (comprehension_filter _ (overdue_atb now)); [done|].
    intros t Ht. apply is_overdue_well_typed.
    rewrite Forall_forall in Hwt. by apply Hwt.
  - apply sorted_Permutation.
  - exact Hin.
  - apply StronglySorted_due_le; [|apply sorted_StronglySorted].
    apply Forall_forall. intros t [_ Ht]%Hin. by eapply overdue_at_key.
  - intros t [_ (d & Hd & _)]%Hin. rewrite Hd. by split.
Qed.

(** Tasks of the same due date come in the order of the open collection. *)
Lemma getOverdueTasks_stable (s : State) (l : list Task) (d : Z) :
  Forall well_typed (tasks s) →
  eval (getOverdueTasks clock) s = Ok l →
  filter (λ t, dueDate_key t = d) l
  = filter (λ t, dueDate_key t = d)
      (filter (λ t, overdue_atb (clock (ticks s)) t) (tasks s)).
Proof.
  intros Hwt. unfold getOverdueTasks, datetime_now. unfold_M. simpl.
  rewrite (comprehension_filter _ (overdue_atb (clock (ticks s)))).
  2:{ intros t Ht. apply is_overdue_well_typed.
      rewrite Forall_forall in Hwt. by apply Hwt. }
  simpl. intros [= <-]. apply sorted_stable.
Qed.
End GetOverdueTasks.

Lemma getOverdueTasks_sorted_overdue_witness :
  Forall well_typed (tasks three_tasks) ∧
  ∃ l,
    getOverdueTasks (clock_from t2025) three_tasks = (Ok l, set_ticks S three_tasks) ∧
    l ≡ₚ filter (λ t, overdue_atb (clock_from t2025 (ticks three_tasks)) t)
           (tasks three_tasks) ∧
    (∀ t, t ∈ l ↔ t ∈ tasks three_tasks
                  ∧ overdue_at (clock_from t2025 (ticks three_tasks)) t) ∧
    StronglySorted due_le l ∧
    (∀ t, t ∈ l → t !! "dueDate" ≠ Some VNone ∧ t !! "dueDate" ≠ None).
Proof.
  assert (H : Forall well_typed (tasks three_tasks)).
  { apply well_typedb_correct. vm_compute. reflexivity. }
  split; [exact H|].
  exact (getOverdueTasks_sorted_overdue (clock_from t2025) three_tasks H).
Defined.

(** C8 (the code departs from it): [getOverdueTasks] does not return on
    every state of the manager.  After
    [updateTask(1, {'dueDate': '2024-02-01'})], which stores the string as
    it is (line 56), the comparison of line 76 is between a string and a
    [datetime]; after [addTask('Pay rent', 'high',
    '2024-01-15T09:00:00+01:00')], which stores the aware [datetime] the
    parser returns, it is between an aware [datetime] and the naive
    [datetime.now()].  Both raise [TypeError], on a task that is open, not
    completed and due in 2024, the clock reading 2025. *)
Theorem getOverdueTasks_raises_TypeError :
  column "dueDate" (tasks string_dueDate) = [Some (VStr "2024-02-01")] ∧
  column "completed" (tasks string_dueDate) = [Some (VBool false)] ∧
  eval (getOverdueTasks (clock_from t2025)) string_dueDate
  = Raise (TypeError
             "'<' not supported between instances of 'str' and 'datetime.datetime'") ∧
  fromisoformat_date "2024-01-15T09:00:00+01:00"
  = Ok (Aware 1705305600000000 3600000000) ∧
  column "dueDate" (tasks aware_dueDate)
  = [Some (VAware 1705305600000000 3600000000)] ∧
  column "completed" (tasks aware_dueDate) = [Some (VBool false)] ∧
  eval (getOverdueTasks (clock_from t2025)) aware_dueDate
  = Raise (TypeError "can't compare offset-naive and offset-aware datetimes").
Proof. repeat split; vm_compute; reflexivity. Qed.

(** On the three tasks: the one due in January, then the one due in March;
    the one without due date is left out. *)
Example getOverdueTasks_three_tasks :
  column "title" <$> option_of_result (eval (getOverdueTasks (clock_from t2025)) three_tasks)
  = Some [Some (VStr "File taxes"); Some (VStr "Write report")].
Proof. vm_compute. reflexivity. Qed.

(** ** searchTasks *)

Section SearchTasks.
Variable str_lower : string → string.

Lemma search_match_searchable (query : string) (t : Task) :
  searchable t → search_match str_lower query t = Ok (matchesb str_lower query t).
Proof.
  intros [[title Ht] Hd]. unfold search_match, matchesb, subscript, dict_get.
  rewrite Ht. simpl.
  destruct Hd as [->|[d ->]]; simpl;
    by destruct (contains (str_lower query) (str_lower title)).
Qed.

(** C10: [searchTasks] reads the open collection only.  It changes nothing;
    its outcome is the same whatever the completed collection holds; a
    result is a sublist of the open collection, so a completed task, whose
    id is in no open task, is not in it; and on tasks whose title and
    description are strings the result is there: the open tasks that match. *)
Theorem searchTasks_open_only (query : string) (s : State) :
  exec (searchTasks str_lower query) s = s ∧
  (∀ cs, eval (searchTasks str_lower query) (set_completedTasks (λ _, cs) s)
         = eval (searchTasks str_lower query) s) ∧
  (∀ l, eval (searchTasks str_lower query) s = Ok l →
        sublist l (tasks s) ∧
        (∀ t, t ∈ l → t ∈ tasks s) ∧
        (one_collection_per_id s →
         ∀ t, t ∈ completedTasks s → is_Some (t !! "id") → t ∉ l)) ∧
  (Forall searchable (tasks s) →
   eval (searchTasks str_lower query) s = Ok (filter (λ t, matchesb str_lower query t) (tasks s))).
Proof.
  unfold searchTasks. unfold_M. simpl. split_and!; try done.
  - intros l Hl. apply comprehension_sublist in Hl.
    assert (Hin : ∀ t, t ∈ l → t ∈ tasks s).
    { intros t Ht. by eapply elem_of_sublist. }
    split_and!; try done.
    intros Hone t Hc [v Hv] Ht.
    assert (Ho' : Some v ∈ ids (tasks s)).
    { unfold ids, column. apply list_elem_of_fmap. exists t. auto. }
    assert (Hc' : Some v ∈ ids (completedTasks s)).
    { unfold ids, column. apply list_elem_of_fmap. exists t. auto. }
    destruct (Hone v) as [[_ H]|[H _]]; [|done..].
    unfold ids, column. rewrite fmap_app. apply elem_of_app. by left.
  - intros Hs. apply comprehension_filter. intros t Ht.
    apply search_match_searchable. rewrite Forall_forall in Hs. by apply Hs.
Qed.
End SearchTasks.

(** The search is case-insensitive and looks at title and description. *)
Example searchTasks_three_tasks :
  column "title" <$> option_of_result (eval (searchTasks lower "RE") three_tasks)
  = Some [Some (VStr "Write report"); Some (VStr "Read book")].
Proof. vm_compute. reflexivity. Qed.

(** ** completeTask *)

Lemma py_eq_VInt_inj (n m : Z) (taskId : value) :
  py_eq (VInt n) taskId = true → py_eq (VInt m) taskId = true → n = m.
Proof.
  unfold py_eq. simpl. destruct (as_number taskId) as [a|]; [|done].
  intros ->%Z.eqb_eq ->%Z.eqb_eq. done.
Qed.

Lemma find_index_found taskId l1 t l2 k :
  (∀ t', t' ∈ l1 → ∃ v, t' !! "id" = Some v ∧ py_eq v taskId = false) →
  names taskId t →
  find_index taskId (l1 ++ t :: l2) k = Ok (Some (k + length l1)%nat).
Proof.
  intros Hl1 (v & Hv & Heq). revert k.
  induction l1 as [|t' l1 IH]; intros k; simpl; unfold subscript.
  - rewrite Hv. simpl. rewrite Heq. by rewrite Nat.add_0_r.
  - destruct (Hl1 t') as (w & Hw & Hpe); [apply list_elem_of_here|].
    rewrite Hw. simpl. rewrite Hpe. rewrite IH.
    + do 2 f_equal. lia.
    + intros t'' Ht''. apply Hl1. by apply list_elem_of_further.
Qed.

Lemma find_index_absent taskId ts k :
  (∀ t, t ∈ ts → ∃ v, t !! "id" = Some v ∧ py_eq v taskId = false) →
  find_index taskId ts k = Ok None.
Proof.
  revert k; induction ts as [|t ts IH]; intros k Hts; simpl; [done|].
  unfold subscript.
  destruct (Hts t) as (w & Hw & Hpe); [apply list_elem_of_here|].
  rewrite Hw. simpl. rewrite Hpe.
  apply IH. intros t' Ht'. apply Hts. by apply list_elem_of_further.
Qed.

Lemma find_index_Some taskId ts k i :
  find_index taskId ts k = Ok (Some i) →
  ∃ j t, i = (k + j)%nat ∧ ts !! j = Some t.
Proof.
  revert k; induction ts as [|t0 ts IH]; intros k; simpl; [done|].
  unfold subscript. destruct (t0 !! "id") as [v|]; simpl; [|done].
  destruct (py_eq v taskId).
  - intros [= <-]. exists 0%nat, t0. by rewrite Nat.add_0_r.
  - intros H. destruct (IH _ H) as (j & t & -> & Hj).
    exists (S j), t. split; [lia|done].
Qed.

Section CompleteTask.
Variable clock : nat → Z.

Lemma completeTask_found taskId s i t :
  find_index taskId (tasks s) 0 = Ok (Some i) →
  tasks s !! i = Some t →
  completeTask clock taskId s
  = (Ok (Some (completed_at clock s t)),
     notified (notify_calls "taskCompleted" (completed_at clock s t) (observers s))
              (notify_prints "taskCompleted" (completed_at clock s t) (observers s))
       (set_tasks (delete i)
          (set_completedTasks (λ cs, cs ++ [completed_at clock s t]) (set_ticks S s)))).
Proof.
  intros Hf Ht. unfold completeTask, datetime_now. unfold_M.
  rewrite Hf, Ht. simpl. by rewrite notifyObservers_run.
Qed.

Lemma completeTask_absent taskId s :
  find_index taskId (tasks s) 0 = Ok None →
  completeTask clock taskId s = (Ok None, s).
Proof. intros Hf. unfold completeTask. unfold_M. by rewrite Hf. Qed.

Lemma completeTask_raises taskId s e :
  find_index taskId (tasks s) 0 = Raise e →
  completeTask clock taskId s = (Raise e, s).
Proof. intros Hf. unfold completeTask. unfold_M. by rewrite Hf. Qed.

Lemma completed_at_id s t : completed_at clock s t !! "id" = t !! "id".
Proof. unfold completed_at. by rewrite !lookup_insert_ne. Qed.

Lemma completed_at_completed s t :
  completed_at clock s t !! "completed" = Some (VBool true) ∧
  completed_at clock s t !! "completedAt" = Some (VDate (clock (ticks s))).
Proof. unfold completed_at. by simplify_map_eq. Qed.
End CompleteTask.

(** ** The ids of the two collections *)

Lemma ids_app ts1 ts2 : ids (ts1 ++ ts2) = ids ts1 ++ ids ts2.
Proof. unfold ids, column. apply fmap_app. Qed.

Lemma ids_consistent_init : ids_consistent init.
Proof. split; simpl; constructor. Qed.

(** Only the collections and the counter matter, and the counter may grow. *)
Lemma ids_consistent_same s s' :
  tasks s' = tasks s → completedTasks s' = completedTasks s →
  idCounter s ≤ idCounter s' →
  ids_consistent s → ids_consistent s'.
Proof.
  intros Ht Hc Hn [Hnd Hall]. unfold ids_consistent. rewrite Ht, Hc.
  split; [done|]. eapply Forall_impl; [exact Hall|].
  intros o (n & -> & Hle). exists n. split; [done|lia].
Qed.

(** A task with the next id joins the open collection. *)
Lemma ids_consistent_add s s' task :
  tasks s' = tasks s ++ [task] → completedTasks s' = completedTasks s →
  idCounter s' = idCounter s + 1 →
  task !! "id" = Some (VInt (idCounter s + 1)) →
  ids_consistent s → ids_consistent s'.
Proof.
  intros Ht Hc Hn Hid [Hnd Hall]. unfold ids_consistent. rewrite Ht, Hc, Hn.
  assert (Hp : ids ((tasks s ++ [task]) ++ completedTasks s)
               ≡ₚ Some (VInt (idCounter s + 1)) :: ids (tasks s ++ completedTasks s)).
  { rewrite !ids_app. unfold ids at 2, column. simpl. rewrite Hid.
    rewrite <- app_assoc. simpl. by rewrite <- Permutation_middle. }
  rewrite Hp. split.
  - constructor; [|done]. intros Hin.
    rewrite Forall_forall in Hall. destruct (Hall _ Hin) as (n & [= <-] & Hle). lia.
  - constructor; [exists (idCounter s + 1); split; [done|lia]|].
    eapply Forall_impl; [exact Hall|].
    intros o (n & -> & Hle). exists n. split; [done|lia].
Qed.

(** A task moves from the open to the completed collection, id kept. *)
Lemma ids_consistent_move s s' i t t' :
  tasks s !! i = Some t → t' !! "id" = t !! "id" →
  tasks s' = delete i (tasks s) → completedTasks s' = completedTasks s ++ [t'] →
  idCounter s' = idCounter s →
  ids_consistent s → ids_consistent s'.
Proof.
  intros Hi Hid Ht Hc Hn [Hnd Hall]. unfold ids_consistent. rewrite Ht, Hc, Hn.
  assert (Hp : ids (delete i (tasks s) ++ completedTasks s ++ [t'])
               ≡ₚ ids (tasks s ++ completedTasks s)).
  { rewrite <- (take_drop_middle (tasks s) i t Hi) at 2.
    rewrite delete_take_drop, !ids_app.
    replace (ids [t']) with [t !! "id"] by (unfold ids, column; simpl; by rewrite Hid).
    replace (ids (t :: drop (S i) (tasks s)))
      with (t !! "id" :: ids (drop (S i) (tasks s))) by done.
    rewrite <- !app_assoc. apply Permutation_app_head.
    rewrite app_assoc, (Permutation_app_comm _ [_]). simpl.
    by rewrite <- ?app_assoc. }
  by rewrite Hp.
Qed.

(** A task is replaced by one of the same id. *)
Lemma ids_consistent_replace s s' i t t' :
  tasks s !! i = Some t → t' !! "id" = t !! "id" →
  tasks s' = <[i := t']> (tasks s) → completedTasks s' = completedTasks s →
  idCounter s' = idCounter s →
  ids_consistent s → ids_consistent s'.
Proof.
  intros Hi Hid Ht Hc Hn Hs. unfold ids_consistent. rewrite Ht, Hc, Hn.
  assert (Hids : ids (<[i := t']> (tasks s)) = ids (tasks s)).
  { unfold ids, column. rewrite list_fmap_insert, Hid.
    apply list_insert_id. by rewrite list_lookup_fmap, Hi. }
  by rewrite !ids_app, Hids, <- ids_app.
Qed.

Lemma updateTask_raises taskId updates s e :
  find_task taskId (tasks s) 0 = Raise e →
  updateTask taskId updates s = (Raise e, s).
Proof. intros Hf. unfold updateTask. unfold_M. by rewrite Hf. Qed.

Section Consistency.
Variable fromisoformat : string → result datetime.
Variable clock : nat → Z.
Variable str_lower : string → string.

Lemma getOverdueTasks_state s : exec (getOverdueTasks clock) s = set_ticks S s.
Proof.
  unfold getOverdueTasks, datetime_now. unfold_M. simpl.
  by destruct (comprehension _ _).
Qed.

Lemma getTaskStats_state s : exec (getTaskStats clock) s = set_ticks S s.
Proof.
  pose proof (getOverdueTasks_state s) as Ho.
  unfold getTaskStats. unfold_M.
  destruct (getOverdueTasks clock s) as [[l|e] s']; simpl in *; subst s'; [|done].
  by destruct (truediv _ _).
Qed.

Lemma addTask_consistent title priority dueDate s :
  ids_consistent s →
  ids_consistent (exec (addTask fromisoformat clock title priority dueDate) s).
Proof.
  intros Hs. unfold exec.
  pose proof (addTask_effect fromisoformat clock title priority dueDate s)
    as (Hc & _ & He). simpl in Hc, He.
  destruct (addTask fromisoformat clock title priority dueDate s) as [[task|e] s'];
    simpl in *.
  - destruct He as (due & _ & _ & _ & -> & Ht & Hn).
    eapply ids_consistent_add; eauto.
  - destruct He as (Ht & Hn & _). eapply ids_consistent_same; eauto. lia.
Qed.

Lemma settle_all_consistent taskData s :
  ids_consistent s →
  ids_consistent (settle_all (map (addTask_of fromisoformat clock) taskData) s).2.
Proof.
  revert s; induction taskData as [|d ds IH]; intros s Hs; simpl; [done|].
  pose proof (addTask_consistent (dict_get d "title" VNone)
                (Some (dict_get d "priority" VNone))
                (Some (dict_get d "dueDate" VNone)) s Hs) as H1.
  unfold settle, addTask_of, exec in *.
  destruct (addTask _ _ _ _ _ s) as [[task|e] s']; simpl in H1;
    specialize (IH s' H1); by destruct (settle_all _ s').
Qed.

Lemma completeTask_consistent taskId s :
  ids_consistent s → ids_consistent (exec (completeTask clock taskId) s).
Proof.
  intros Hs. unfold exec.
  destruct (find_index taskId (tasks s) 0) as [[i|]|e] eqn:Hf.
  - destruct (find_index_Some _ _ _ _ Hf) as (j & t & -> & Ht). simpl in *.
    rewrite (completeTask_found clock taskId s j t Hf Ht). simpl.
    eapply (ids_consistent_move s _ j t (completed_at clock s t)); eauto.
    apply completed_at_id.
  - by rewrite (completeTask_absent clock taskId s Hf).
  - by rewrite (completeTask_raises clock taskId s e Hf).
Qed.

Lemma updateTask_consistent taskId updates s :
  updates !! "id" = None →
  ids_consistent s → ids_consistent (exec (updateTask taskId updates) s).
Proof.
  intros Hid Hs. unfold exec.
  destruct (find_task taskId (tasks s) 0) as [[[i task]|]|e] eqn:Hf.
  - destruct (find_task_Some _ _ _ _ _ Hf) as (j & v & -> & Ht & _). simpl in *.
    rewrite (updateTask_run taskId updates s j task Hf). simpl.
    eapply (ids_consistent_replace s _ j task (updates ∪ task)); eauto.
    by apply lookup_union_r.
  - by rewrite (updateTask_not_found taskId updates s Hf).
  - by rewrite (updateTask_raises taskId updates s e Hf).
Qed.

Lemma perform_consistent o s :
  keeps_ids o → ids_consistent s →
  ids_consistent (perform fromisoformat clock str_lower o s).
Proof.
  intros Hk Hs. destruct o; simpl in *.
  - by apply addTask_consistent.
  - unfold exec. rewrite bulkAddTasks_run. simpl. by apply settle_all_consistent.
  - by apply completeTask_consistent.
  - by apply updateTask_consistent.
  - done.
  - unfold exec, removeObserver. unfold_M. by destruct (existsb _ _).
  - unfold exec. destruct (getTasksByPriority_run priority s)
      as (s' & -> & _ & _ & Ht & Hc & Hn & _). simpl.
    eapply ids_consistent_same; eauto. lia.
  - by rewrite getOverdueTasks_state.
  - by rewrite getTaskStats_state.
  - done.
  - unfold exec. by destruct (run_ready_run s) as (h & es & ->).
Qed.

Lemma foldl_perform_consistent ops s :
  Forall keeps_ids ops → ids_consistent s →
  ids_consistent (foldl (λ s o, perform fromisoformat clock str_lower o s) s ops).
Proof.
  revert s; induction ops as [|o ops IH]; intros s Hk Hs; simpl; [done|].
  apply Forall_cons in Hk as [Ho Hk]. apply IH; [done|].
  by apply perform_consistent.
Qed.

Lemma after_consistent ops :
  Forall keeps_ids ops → ids_consistent (after fromisoformat clock str_lower ops).
Proof. intros Hk. apply foldl_perform_consistent; [done|apply ids_consistent_init]. Qed.
End Consistency.

Lemma ids_consistent_open s t :
  ids_consistent s → t ∈ tasks s → ∃ n, t !! "id" = Some (VInt n).
Proof.
  intros [_ Hall] Ht. rewrite Forall_forall in Hall.
  destruct (Hall (t !! "id")) as (n & Hn & _); [|by exists n].
  rewrite ids_app. apply elem_of_app. left.
  unfold ids, column. apply list_elem_of_fmap. by exists t.
Qed.

Lemma ids_consistent_one_collection s :
  ids_consistent s → one_collection_per_id s.
Proof.
  intros [Hnd _] v Hv. rewrite ids_app in Hnd, Hv.
  apply NoDup_app in Hnd as (_ & Hdisj & _).
  apply elem_of_app in Hv as [Ho|Hc].
  - left. split; [done|]. by apply Hdisj.
  - right. split; [|done]. intros Ho. by apply (Hdisj (Some v)).
Qed.

(** In a consistent state the id of an open task is the id of no other
    open task, so [==] tells it from all of them. *)
Lemma ids_consistent_others s l1 t l2 taskId :
  ids_consistent s → tasks s = l1 ++ t :: l2 → names taskId t →
  ∀ t', t' ∈ l1 ++ l2 → ∃ v, t' !! "id" = Some v ∧ py_eq v taskId = false.
Proof.
  intros Hs Hts (v & Hv & Hpe) t' Ht'.
  destruct (ids_consistent_open s t Hs) as (n & Hn).
  { rewrite Hts. apply elem_of_app. right. apply list_elem_of_here. }
  destruct (ids_consistent_open s t' Hs) as (m & Hm).
  { rewrite Hts. apply elem_of_app in Ht' as [?|?]; apply elem_of_app;
      [by left|right; by apply list_elem_of_further]. }
  exists (VInt m). split; [done|].
  destruct (py_eq (VInt m) taskId) eqn:E; [|done]. exfalso.
  rewrite Hn in Hv. injection Hv as <-.
  assert (m = n) as -> by (by eapply py_eq_VInt_inj).
  destruct Hs as [Hnd _]. rewrite Hts, !ids_app in Hnd.
  replace (ids (t :: l2)) with (Some (VInt n) :: ids l2) in Hnd
    by (unfold ids, column; simpl; by rewrite Hn).
  rewrite <- app_assoc in Hnd. simpl in Hnd.
  rewrite <- Permutation_middle in Hnd. apply NoDup_cons in Hnd as [Hnin _].
  apply Hnin. rewrite app_assoc. apply elem_of_app. left.
  rewrite <- ids_app. unfold ids, column. apply list_elem_of_fmap. by exists t'.
Qed.

Section CompleteTaskOnce.
Variable fromisoformat : string → result datetime.
Variable clock : nat → Z.
Variable str_lower : string → string.

Lemma completeTask_consistent_found s taskId l1 t l2 :
  ids_consistent s → tasks s = l1 ++ t :: l2 → names taskId t →
  let r := completeTask clock taskId s in
  r.1 = Ok (Some (completed_at clock s t)) ∧
  tasks r.2 = l1 ++ l2 ∧
  completedTasks r.2 = completedTasks s ++ [completed_at clock s t] ∧
  trace r.2 = trace s ++ notify_calls "taskCompleted" (completed_at clock s t)
                            (observers s) ∧
  completeTask clock taskId r.2 = (Ok None, r.2).
Proof.
  intros Hs Hts Hn r.
  pose proof (ids_consistent_others s l1 t l2 taskId Hs Hts Hn) as Hothers.
  assert (Hf : find_index taskId (tasks s) 0 = Ok (Some (length l1))).
  { rewrite Hts. apply (find_index_found taskId l1 t l2 0); [|done].
    intros t' Ht'. apply Hothers. apply elem_of_app. by left. }
  assert (Ht : tasks s !! length l1 = Some t).
  { rewrite Hts. by rewrite list_lookup_middle. }
  subst r. rewrite (completeTask_found clock taskId s _ t Hf Ht). simpl.
  rewrite Hts, delete_middle. split_and!; try done.
  apply completeTask_absent. simpl. rewrite Hts, delete_middle.
  by apply find_index_absent.
Qed.

Lemma completeTask_consistent_absent s taskId :
  ids_consistent s → (∀ t, t ∈ tasks s → ¬ names taskId t) →
  completeTask clock taskId s = (Ok None, s).
Proof.
  intros Hs Hno. apply completeTask_absent, find_index_absent.
  intros t Ht. destruct (ids_consistent_open s t Hs Ht) as (n & Hn).
  exists (VInt n). split; [done|].
  destruct (py_eq (VInt n) taskId) eqn:E; [|done].
  destruct (Hno t Ht). by exists (VInt n).
Qed.

(** X23, [completeTask] while the ids are left alone (lines 34-44): after
    any calls among which no [updateTask] assigns the key [id], no id is
    in both collections and the ids of the two collections are pairwise
    distinct.  In such a state, for an id that names an open task,
    [completeTask] sets [completed], stamps [completedAt], removes the
    task from the open collection, appends it to the completed one,
    notifies the observers and returns it, and a second call with that id
    returns [None] and changes nothing; for an id that names no open task
    it returns [None] and changes nothing. *)
Theorem completeTask_moves_once (ops : list op) :
  Forall keeps_ids ops →
  let s := after fromisoformat clock str_lower ops in
  one_collection_per_id s ∧
  NoDup (ids (tasks s ++ completedTasks s)) ∧
  (∀ taskId l1 t l2,
     tasks s = l1 ++ t :: l2 → names taskId t →
     let moved := completed_at clock s t in
     let r := completeTask clock taskId s in
     r.1 = Ok (Some moved) ∧
     moved !! "completed" = Some (VBool true) ∧
     moved !! "completedAt" = Some (VDate (clock (ticks s))) ∧
     tasks r.2 = l1 ++ l2 ∧
     completedTasks r.2 = completedTasks s ++ [moved] ∧
     trace r.2 = trace s ++ notify_calls "taskCompleted" moved (observers s) ∧
     completeTask clock taskId r.2 = (Ok None, r.2)) ∧
  (∀ taskId,
     (∀ t, t ∈ tasks s → ¬ names taskId t) →
     completeTask clock taskId s = (Ok None, s)).
Proof.
  intros Hk s. pose proof (after_consistent fromisoformat clock str_lower ops Hk) as Hs.
  fold s in Hs. split_and!.
  - by apply ids_consistent_one_collection.
  - by destruct Hs.
  - intros taskId l1 t l2 Hts Hn moved r.
    destruct (completeTask_consistent_found s taskId l1 t l2 Hs Hts Hn)
      as (H1 & H2 & H3 & H4 & H5).
    destruct (completed_at_completed clock s t) as [H6 H7].
    by split_and!.
  - intros taskId Hno. by apply completeTask_consistent_absent.
Qed.
End CompleteTaskOnce.

(** C6 (the code departs from it): after [addTask('A')], [addTask('B')],
    [completeTask(1)] and [updateTask(2, {'id': 1})], the assignment of
    line 56 has given the open task the id 1 of the completed one: the id
    is in both collections, and [completeTask(1)] returns a task a second
    time, after which the completed collection holds the id twice. *)
Theorem updateTask_id_in_both_collections :
  let s := after fromisoformat_date (clock_from t2025) lower id_overwritten in
  let r := completeTask (clock_from t2025) (VInt 1) s in
  ids (tasks s) = [Some (VInt 1)] ∧
  ids (completedTasks s) = [Some (VInt 1)] ∧
  ¬ one_collection_per_id s ∧
  (λ found, column "title" (option_list found)) <$> option_of_result r.1
  = Some [Some (VStr "B")] ∧
  ids (completedTasks r.2) = [Some (VInt 1); Some (VInt 1)] ∧
  column "title" (completedTasks r.2) = [Some (VStr "A"); Some (VStr "B")].
Proof.
  assert (H1 : ids (tasks (after fromisoformat_date (clock_from t2025) lower id_overwritten))
               = [Some (VInt 1)]) by (vm_compute; reflexivity).
  assert (H2 : ids (completedTasks (after fromisoformat_date (clock_from t2025) lower
                                      id_overwritten))
               = [Some (VInt 1)]) by (vm_compute; reflexivity).
  split_and!; [done|done| |vm_compute; reflexivity..].
  intros H. destruct (H (VInt 1)) as [[_ Hn]|[Hn _]].
  - rewrite ids_app, H1, H2. apply list_elem_of_here.
  - apply Hn. rewrite H2. apply list_elem_of_here.
  - apply Hn. rewrite H1. apply list_elem_of_here.
Qed.

Lemma completeTask_moves_once_witness :
  let s := after fromisoformat_date (clock_from t2025) lower plain_calls in
  let t := default ∅ (head (tasks s)) in
  let r := completeTask (clock_from t2025) (VInt 3) s in
  Forall keeps_ids plain_calls ∧
  tasks s = [] ++ t :: [] ∧
  names (VInt 3) t ∧
  one_collection_per_id s ∧
  r.1 = Ok (Some (completed_at (clock_from t2025) s t)) ∧
  tasks r.2 = [] ++ [] ∧
  completeTask (clock_from t2025) (VInt 3) r.2 = (Ok None, r.2).
Proof.
  intros s t r.
  assert (H : Forall keeps_ids plain_calls).
  { unfold plain_calls. repeat constructor. }
  assert (Hts : tasks s = [] ++ t :: []) by compute_done.
  assert (Hn : names (VInt 3) t).
  { exists (VInt 3). split; vm_compute; reflexivity. }
  destruct (completeTask_moves_once fromisoformat_date (clock_from t2025) lower
              plain_calls H) as (H1 & _ & H2 & _).
  destruct (H2 (VInt 3) [] t [] Hts Hn) as (H3 & _ & _ & H4 & _ & _ & H5).
  split; [exact H|]. split; [exact Hts|]. split; [exact Hn|].
  split; [exact H1|]. split; [exact H3|]. split; [exact H4|exact H5].
Defined.

(** On those calls: task 1 is completed, task 3 is open under its new
    title, and a second [completeTask(1)] finds nothing. *)
Example completeTask_plain_calls :
  let s := after fromisoformat_date (clock_from t2025) lower plain_calls in
  ids (tasks s) = [Some (VInt 3)] ∧
  column "title" (tasks s) = [Some (VStr "C")] ∧
  ids (completedTasks s) = [Some (VInt 1)] ∧
  column "completed" (completedTasks s) = [Some (VBool true)] ∧
  eval (completeTask (clock_from t2025) (VInt 1)) s = Ok None.
Proof. repeat split; vm_compute; reflexivity. Qed.

(** ** Further properties of the specification *)


(** The scenario of §8: with two observers of which the first raises, a
    valid [addTask] reaches both, in registration order, and returns. *)
Example addTask_two_observers :
  let r := addTask fromisoformat_date (clock_from t2025)
             (VStr "Write report") (Some (VStr "high")) None two_observers in
  column "title" <$> (option_of_result r.1 ≫= λ t, Some [t])
  = Some [Some (VStr "Write report")] ∧
  map (λ c, (c.1.1, c.1.2)) (trace r.2) = [(0%nat, "taskAdded"); (1%nat, "taskAdded")] ∧
  Some (map snd (trace r.2)) = (λ t, [t; t]) <$> option_of_result r.1 ∧
  stdout r.2 = ["Observer error: boom"].
Proof. repeat split; vm_compute; reflexivity. Qed.

Section FreshIds.
Variable fromisoformat : string → result datetime.
Variable clock : nat → Z.
Variable str_lower : string → string.

(** X2, ids (§3, §8): after any calls among which no [updateTask] assigns the
    key [id], the task a successful [addTask] returns has the id after the
    counter, which is greater than every id in the two collections. *)
Theorem addTask_fresh_id (ops : list op) (title : value)
    (priority dueDate : option value) (task : Task) :
  Forall keeps_ids ops →
  let s := after fromisoformat clock str_lower ops in
  eval (addTask fromisoformat clock title priority dueDate) s = Ok task →
  task !! "id" = Some (VInt (idCounter s + 1)) ∧
  ∀ o, o ∈ ids (tasks s ++ completedTasks s) →
       ∃ n, o = Some (VInt n) ∧ n < idCounter s + 1.
Proof.
  intros Hk s Ht.
  pose proof (after_consistent fromisoformat clock str_lower ops Hk) as [_ Hall]. fold s in Hall.
  pose proof (addTask_effect fromisoformat clock title priority dueDate s)
    as (_ & _ & He).
  unfold eval in Ht. simpl in He. rewrite Ht in He.
  destruct He as (due & _ & _ & _ & -> & _). split.
  - unfold new_task. by simplify_map_eq.
  - intros o Ho. rewrite Forall_forall in Hall.
    destruct (Hall o Ho) as (n & -> & Hn). exists n. split; [done|lia].
Qed.
End FreshIds.

Lemma addTask_fresh_id_witness :
  Forall keeps_ids plain_calls ∧
  eval (addTask fromisoformat_date (clock_from t2025) (VStr "D") None None)
       (after fromisoformat_date (clock_from t2025) lower plain_calls)
  = Ok (new_task (clock_from t2025)
          (after fromisoformat_date (clock_from t2025) lower plain_calls)
          (VStr "D") (VStr "medium") VNone) ∧
  new_task (clock_from t2025)
    (after fromisoformat_date (clock_from t2025) lower plain_calls)
    (VStr "D") (VStr "medium") VNone !! "id"
  = Some (VInt (idCounter (after fromisoformat_date (clock_from t2025) lower plain_calls) + 1)).
Proof.
  assert (H : Forall keeps_ids plain_calls).
  { unfold plain_calls. repeat constructor. }
  assert (E : eval (addTask fromisoformat_date (clock_from t2025) (VStr "D") None None)
                   (after fromisoformat_date (clock_from t2025) lower plain_calls)
              = Ok (new_task (clock_from t2025)
                      (after fromisoformat_date (clock_from t2025) lower plain_calls)
                      (VStr "D") (VStr "medium") VNone)).
  { compute_done. }
  split; [exact H|]. split; [exact E|].
  exact (proj1 (addTask_fresh_id fromisoformat_date (clock_from t2025) lower plain_calls
                  (VStr "D") None None _ H E)).
Defined.

(** X3, unknown ids (§4.3, §7): [updateTask] with an id that names no open
    task does nothing: no error, no notification, no change. *)
Theorem updateTask_unknown_id (taskId : value) (updates : Task) (s : State) :
  (∀ t, t ∈ tasks s → ∃ v, t !! "id" = Some v ∧ py_eq v taskId = false) →
  updateTask taskId updates s = (Ok tt, s).
Proof.
  intros H. apply updateTask_not_found.
  generalize 0%nat. induction (tasks s) as [|t ts IH]; intros k; simpl; [done|].
  destruct (H t) as (v & Hv & Hpe); [apply list_elem_of_here|].
  unfold subscript. rewrite Hv. simpl. rewrite Hpe.
  apply IH. intros t' Ht'. apply H. by apply list_elem_of_further.
Qed.

Lemma no_such_id_correct (taskId : value) (ts : list Task) :
  no_such_id taskId ts = true →
  ∀ t, t ∈ ts → ∃ v, t !! "id" = Some v ∧ py_eq v taskId = false.
Proof.
  unfold no_such_id. induction ts as [|t0 ts IH]; simpl.
  - intros _ t Ht. by apply elem_of_nil in Ht.
  - intros [H0 Hts]%andb_true_iff t [->|Ht]%elem_of_cons; [|by apply IH].
    destruct (t0 !! "id") as [v|]; [|done]. exists v. split; [done|].
    by apply negb_true_iff.
Qed.

Lemma updateTask_unknown_id_witness :
  ids (tasks watched_tasks) = [Some (VInt 1); Some (VInt 2); Some (VInt 3)] ∧
  length (observers watched_tasks) = 2%nat ∧
  updateTask (VInt 7) {["title" := VStr "C"]} watched_tasks = (Ok tt, watched_tasks).
Proof.
  split; [vm_compute; reflexivity|]. split; [vm_compute; reflexivity|].
  apply (updateTask_unknown_id (VInt 7) {["title" := VStr "C"]} watched_tasks).
  apply no_such_id_correct. vm_compute. reflexivity.
Defined.

(** ** validateTask and addTask: every outcome *)

Section Outcomes.
Variable fromisoformat : string → result datetime.
Variable clock : nat → Z.

(** X4, [validateTask] (lines 28-32): it never returns [False].  A task
    without title raises [KeyError]; a title without truth value ([None],
    [False], [0], [''], [[]]) raises [Exception(False)]; a title with truth
    value passes when it has [__len__], which of the values here a
    non-empty string and a non-empty list have, and raises
    [AttributeError] when it has none ([True], a number, a [datetime]).
    The collections, the observers, the counter and the call log are as
    they were, and the event loop has run what was ready. *)
Theorem validateTask_outcomes (task : Task) (s : State) :
  let r := validateTask task s in
  match task !! "title" with
  | None => r.1 = Raise (KeyError "title")
  | Some title =>
      (r.1 = Ok true ↔ truthy title = true ∧ has_len title = true) ∧
      (truthy title = false → r.1 = Raise (Exception (ArgBool false))) ∧
      (truthy title = true → has_len title = false →
       r.1 = Raise (AttributeError
                      ("'" +:+ type_name title
                       +:+ "' object has no attribute '__len__'"))) ∧
      (∀ t, title = VStr t → t ≠ "" → r.1 = Ok true) ∧
      (∀ l, title = VList l → l ≠ [] → r.1 = Ok true)
  end ∧
  r.1 ≠ Ok false ∧
  tasks r.2 = tasks s ∧ completedTasks r.2 = completedTasks s ∧
  observers r.2 = observers s ∧ idCounter r.2 = idCounter s ∧
  trace r.2 = trace s ∧ ready r.2 = [].
Proof.
  intros r. subst r. destruct (task !! "title") as [title|] eqn:Ht.
  - destruct (validateTask_run task title s Ht) as (h & es & ->). simpl.
    split_and!; try done.
    + destruct (truthy title), (has_len title); split; try done; by intros [? ?].
    + by intros ->.
    + by intros -> ->.
    + intros t -> Hne. by rewrite (proj2 (truthy_VStr t) Hne).
    + intros l -> Hne. by rewrite (proj2 (truthy_VList l) Hne).
    + by destruct (truthy title), (has_len title).
  - unfold validateTask, asyncio_sleep. unfold_M.
    destruct (run_ready_run s) as (h & es & ->).
    unfold subscript. rewrite Ht. simpl. by split_and!.
Qed.

(** X5, [addTask] when it succeeds (lines 11-25): for a title that is a
    non-empty string and a due date that is left out, false or parses, the
    call returns the task it built (the next id, the arguments, the parsed
    due date, not completed, created now), has appended it at the end of
    the open collection, advanced the counter and the clock by one and
    called each observer once with [taskAdded] and that task. *)
Theorem addTask_success (t : string) (priority dueDate : option value)
    (due : value) (s : State) :
  t ≠ "" →
  parse_dueDate fromisoformat (default VNone dueDate) = Ok due →
  let r := addTask fromisoformat clock (VStr t) priority dueDate s in
  ∃ task,
    r.1 = Ok task ∧
    task !! "id" = Some (VInt (idCounter s + 1)) ∧
    task !! "title" = Some (VStr t) ∧
    task !! "priority" = Some (default (VStr "medium") priority) ∧
    task !! "dueDate" = Some due ∧
    task !! "completed" = Some (VBool false) ∧
    task !! "createdAt" = Some (VDate (clock (ticks s))) ∧
    dom task = list_to_set ["id"; "title"; "priority"; "dueDate"; "completed"; "createdAt"] ∧
    tasks r.2 = tasks s ++ [task] ∧
    completedTasks r.2 = completedTasks s ∧
    idCounter r.2 = idCounter s + 1 ∧
    ticks r.2 = S (ticks s) ∧
    trace r.2 = trace s ++ map (λ o, (obs_id o, "taskAdded", task)) (observers s).
Proof.
  intros Hne Hd r. subst r.
  destruct (addTask_run fromisoformat clock (VStr t) priority dueDate due s Hd)
    as (h & es & ->).
  rewrite (proj2 (truthy_VStr t) Hne). simpl.
  eexists. split; [reflexivity|]. unfold new_task.
  split_and!; try done; by simplify_map_eq.
Qed.

(** X6, [addTask] with a title that does not pass (lines 20-22, 30-31):
    when the due date evaluates and the title has no truth value ([None],
    [''], [0], [False], [[]]) or has no [__len__] ([True], a number, a
    [datetime]), the call raises what [validateTask] raises, the id it had
    taken is spent (the counter stays advanced), and no task is appended
    and no observer called. *)
Theorem addTask_invalid_title (title : value) (priority dueDate : option value)
    (due : value) (s : State) :
  truthy title = false ∨ has_len title = false →
  parse_dueDate fromisoformat (default VNone dueDate) = Ok due →
  let r := addTask fromisoformat clock title priority dueDate s in
  r.1 = Raise (if truthy title
               then AttributeError ("'" +:+ type_name title
                                    +:+ "' object has no attribute '__len__'")
               else Exception (ArgBool false)) ∧
  tasks r.2 = tasks s ∧ completedTasks r.2 = completedTasks s ∧
  trace r.2 = trace s ∧ stdout r.2 = stdout s ∧
  idCounter r.2 = idCounter s + 1.
Proof.
  intros Ht Hd r. subst r.
  destruct (addTask_run fromisoformat clock title priority dueDate due s Hd)
    as (h & es & ->).
  destruct (truthy title), (has_len title); simpl; try done.
  by destruct Ht.
Qed.
End Outcomes.

Lemma addTask_success_witness :
  "Write report" ≠ "" ∧
  ∃ task,
    (addTask fromisoformat_date (clock_from t2025) (VStr "Write report")
       None (Some (VStr "2024-01-15")) init).1 = Ok task ∧
    task !! "id" = Some (VInt 1).
Proof.
  assert (Hne : "Write report" ≠ "") by discriminate.
  split; [exact Hne|].
  destruct (addTask_success fromisoformat_date (clock_from t2025) "Write report"
              None (Some (VStr "2024-01-15")) (VDate 1705276800000000) init
              Hne eq_refl) as (task & H1 & H2 & _).
  exists task. split; [exact H1|exact H2].
Defined.

Lemma addTask_invalid_title_witness :
  (addTask fromisoformat_date (clock_from t2025) (VInt 5) (Some (VStr "low"))
     (Some (VStr "2024-01-20")) one_task).1
  = Raise (AttributeError "'int' object has no attribute '__len__'") ∧
  tasks (addTask fromisoformat_date (clock_from t2025) (VInt 5) (Some (VStr "low"))
           (Some (VStr "2024-01-20")) one_task).2 = tasks one_task ∧
  idCounter (addTask fromisoformat_date (clock_from t2025) (VInt 5) (Some (VStr "low"))
               (Some (VStr "2024-01-20")) one_task).2 = idCounter one_task + 1.
Proof.
  destruct (addTask_invalid_title fromisoformat_date (clock_from t2025) (VInt 5)
              (Some (VStr "low")) (Some (VStr "2024-01-20"))
              (VDate 1705708800000000) one_task) as (H1 & H2 & _ & _ & _ & H3).
  - right. reflexivity.
  - reflexivity.
  - split; [exact H1|]. split; [exact H2|exact H3].
Defined.

(** ** updateTask: what a patch does *)

Lemma find_task_found taskId l1 t l2 k :
  (∀ t', t' ∈ l1 → ∃ v, t' !! "id" = Some v ∧ py_eq v taskId = false) →
  names taskId t →
  find_task taskId (l1 ++ t :: l2) k = Ok (Some ((k + length l1)%nat, t)).
Proof.
  intros Hl1 (v & Hv & Heq). revert k.
  induction l1 as [|t' l1 IH]; intros k; simpl; unfold subscript.
  - rewrite Hv. simpl. rewrite Heq. by rewrite Nat.add_0_r.
  - destruct (Hl1 t') as (w & Hw & Hpe); [apply list_elem_of_here|].
    rewrite Hw. simpl. rewrite Hpe. rewrite IH.
    + do 3 f_equal. lia.
    + intros t'' Ht''. apply Hl1. by apply list_elem_of_further.
Qed.

(** X7, [updateTask] on the task found (lines 52-57): the first open task
    whose id equals the argument gets every entry of the patch, keeps every
    other entry, and stays in its place; the other tasks, the completed
    collection and the counter are untouched, and each observer is called
    once with [taskUpdated] and the task as patched. *)
Theorem updateTask_applies_patch (taskId : value) (updates : Task) (s : State)
    (l1 l2 : list Task) (t : Task) :
  tasks s = l1 ++ t :: l2 →
  (∀ t', t' ∈ l1 → ∃ v, t' !! "id" = Some v ∧ py_eq v taskId = false) →
  names taskId t →
  let r := updateTask taskId updates s in
  ∃ t',
    r.1 = Ok tt ∧
    tasks r.2 = l1 ++ t' :: l2 ∧
    (∀ k v, updates !! k = Some v → t' !! k = Some v) ∧
    (∀ k, updates !! k = None → t' !! k = t !! k) ∧
    completedTasks r.2 = completedTasks s ∧
    idCounter r.2 = idCounter s ∧
    trace r.2 = trace s ++ map (λ o, (obs_id o, "taskUpdated", t')) (observers s).
Proof.
  intros Hts Hl1 Hn r. subst r.
  pose proof (find_task_found taskId l1 t l2 0 Hl1 Hn) as Hf. rewrite <- Hts in Hf.
  rewrite (updateTask_run taskId updates s _ t Hf). simpl.
  exists (updates ∪ t). split_and!; try done.
  - rewrite Hts. replace (length l1) with (length l1 + 0)%nat by lia.
    by rewrite insert_app_r.
  - intros k v Hk. by apply lookup_union_Some_l.
  - intros k Hk. by apply lookup_union_r.
Qed.

(** X8: a patch without the key [id], applied a second time, changes no
    task: the open collection after two calls is the one after the first. *)
Theorem updateTask_twice (taskId : value) (updates : Task) (s : State)
    (l1 l2 : list Task) (t : Task) :
  tasks s = l1 ++ t :: l2 →
  (∀ t', t' ∈ l1 → ∃ v, t' !! "id" = Some v ∧ py_eq v taskId = false) →
  names taskId t →
  updates !! "id" = None →
  tasks (exec (updateTask taskId updates) (exec (updateTask taskId updates) s))
  = tasks (exec (updateTask taskId updates) s) ∧
  completedTasks (exec (updateTask taskId updates) (exec (updateTask taskId updates) s))
  = completedTasks s.
Proof.
  intros Hts Hl1 Hn Hid. unfold exec.
  pose proof (find_task_found taskId l1 t l2 0 Hl1 Hn) as Hf. rewrite <- Hts in Hf.
  rewrite (updateTask_run taskId updates s _ t Hf). simpl.
  set (s1 := notified _ _ _).
  assert (Hts1 : tasks s1 = l1 ++ (updates ∪ t) :: l2).
  { subst s1. simpl. rewrite Hts.
    replace (length l1) with (length l1 + 0)%nat by lia. by rewrite insert_app_r. }
  assert (Hn1 : names taskId (updates ∪ t)).
  { destruct Hn as (v & Hv & Hpe). exists v. split; [|done].
    by rewrite lookup_union_r. }
  pose proof (find_task_found taskId l1 (updates ∪ t) l2 0 Hl1 Hn1) as Hf1.
  rewrite <- Hts1 in Hf1.
  rewrite (updateTask_run taskId updates s1 _ _ Hf1). simpl.
  rewrite (assoc_L (∪)), (idemp_L (∪)).
  split; [|done]. apply list_insert_insert_eq.
Qed.

Lemma updateTask_applies_patch_witness :
  ∃ t',
    (updateTask (VInt 1) {["title" := VStr "Final report"]} one_task).1 = Ok tt ∧
    tasks (updateTask (VInt 1) {["title" := VStr "Final report"]} one_task).2
    = [] ++ t' :: [] ∧
    t' !! "title" = Some (VStr "Final report").
Proof.
  destruct (updateTask_applies_patch (VInt 1) {["title" := VStr "Final report"]}
              one_task []
              []
              (new_task (clock_from t2025) init (VStr "Write report") (VStr "high") VNone))
    as (t' & H1 & H2 & H3 & _).
  - compute_done.
  - intros t' Ht'. by apply elem_of_nil in Ht'.
  - exists (VInt 1). split; vm_compute; reflexivity.
  - exists t'. split; [exact H1|]. split; [exact H2|].
    apply H3. vm_compute. reflexivity.
Defined.

Lemma updateTask_twice_witness :
  tasks (exec (updateTask (VInt 1) {["title" := VStr "Final report"]})
           (exec (updateTask (VInt 1) {["title" := VStr "Final report"]}) one_task))
  = tasks (exec (updateTask (VInt 1) {["title" := VStr "Final report"]}) one_task).
Proof.
  refine (proj1 (updateTask_twice (VInt 1) {["title" := VStr "Final report"]}
              one_task [] []
              (new_task (clock_from t2025) init (VStr "Write report") (VStr "high") VNone)
              _ _ _ _)).
  - compute_done.
  - intros t' Ht'. by apply elem_of_nil in Ht'.
  - exists (VInt 1). split; vm_compute; reflexivity.
  - vm_compute. reflexivity.
Defined.

(** ** addObserver and removeObserver *)

Lemma existsb_unregistered callback obs :
  (∀ o, o ∈ obs → obs_id o ≠ obs_id callback) →
  existsb (λ o, Nat.eqb (obs_id o) (obs_id callback)) obs = false.
Proof.
  induction obs as [|o obs IH]; intros H; simpl; [done|].
  rewrite IH by (intros o' Ho'; apply H; by apply list_elem_of_further).
  destruct (Nat.eqb_spec (obs_id o) (obs_id callback)) as [E|_]; [|done].
  by destruct (H o (list_elem_of_here _ _)).
Qed.

Lemma list_remove_first callback l1 o l2 :
  (∀ o', o' ∈ l1 → obs_id o' ≠ obs_id callback) →
  obs_id o = obs_id callback →
  list_remove callback (l1 ++ o :: l2) = l1 ++ l2 ∧
  existsb (λ o, Nat.eqb (obs_id o) (obs_id callback)) (l1 ++ o :: l2) = true.
Proof.
  intros Hl1 Ho. induction l1 as [|o' l1 IH]; simpl.
  - rewrite Ho, Nat.eqb_refl. done.
  - destruct (Nat.eqb_spec (obs_id o') (obs_id callback)) as [E|_].
    { by destruct (Hl1 o' (list_elem_of_here _ _)). }
    destruct IH as [-> ->]; [|done].
    intros o'' Ho''. apply Hl1. by apply list_elem_of_further.
Qed.

Lemma removeObserver_registered callback s l1 o l2 :
  observers s = l1 ++ o :: l2 →
  (∀ o', o' ∈ l1 → obs_id o' ≠ obs_id callback) →
  obs_id o = obs_id callback →
  removeObserver callback s = (Ok tt, set_observers (λ _, l1 ++ l2) s).
Proof.
  intros Hobs Hl1 Ho. unfold removeObserver. unfold_M.
  destruct (list_remove_first callback l1 o l2 Hl1 Ho) as [Hr He].
  rewrite Hobs, He. f_equal. apply state_eq; simpl; try done.
  by rewrite Hobs.
Qed.

(** X9, [removeObserver] (lines 62-64): a callback that is not registered
    leaves everything as it is; of a callback registered several times only
    the first registration goes, the others and their order stay. *)
Theorem removeObserver_first_registration (callback : Observer) (s : State) :
  ((∀ o, o ∈ observers s → obs_id o ≠ obs_id callback) →
   removeObserver callback s = (Ok tt, s)) ∧
  (∀ l1 o l2,
     observers s = l1 ++ o :: l2 →
     (∀ o', o' ∈ l1 → obs_id o' ≠ obs_id callback) →
     obs_id o = obs_id callback →
     removeObserver callback s = (Ok tt, set_observers (λ _, l1 ++ l2) s)).
Proof.
  split.
  - intros H. unfold removeObserver. unfold_M.
    by rewrite existsb_unregistered.
  - intros l1 o l2. apply removeObserver_registered.
Qed.

(** X10, [addObserver] then [removeObserver] (lines 59-64), for observers
    that leave the manager alone: registering a callback that was not
    registered and removing it again gives back the state before, and in
    between a notification calls it after the observers registered
    earlier. *)
Theorem removeObserver_addObserver (callback : Observer) (s : State) :
  (∀ o, o ∈ observers s → obs_id o ≠ obs_id callback) →
  exec (removeObserver callback) (exec (addObserver callback) s) = s ∧
  ∀ event data,
    trace (exec (notifyObservers event data) (exec (addObserver callback) s))
    = trace (exec (notifyObservers event data) s) ++ [(obs_id callback, event, data)].
Proof.
  intros H. split.
  - unfold exec, addObserver. unfold_M. simpl.
    rewrite (removeObserver_registered callback
               (set_observers (λ obs, obs ++ [callback]) s)
               (observers s) callback []); [|done..].
    simpl. apply state_eq; simpl; try done. by rewrite app_nil_r.
  - intros event data. unfold exec, addObserver. unfold_M.
    rewrite !notifyObservers_run. simpl.
    unfold notify_calls. by rewrite map_app, app_assoc.
Qed.

Lemma removeObserver_addObserver_witness :
  observers two_observers = [failing_observer; quiet_observer] ∧
  exec (removeObserver late_observer) (exec (addObserver late_observer) two_observers)
  = two_observers ∧
  trace (exec (notifyObservers "taskAdded" ∅)
           (exec (addObserver late_observer) two_observers))
  = trace (exec (notifyObservers "taskAdded" ∅) two_observers)
    ++ [(obs_id late_observer, "taskAdded", ∅)].
Proof.
  split; [reflexivity|].
  destruct (removeObserver_addObserver late_observer two_observers) as [H1 H2].
  - intros o Ho.
    change (observers two_observers) with [failing_observer; quiet_observer] in Ho.
    apply elem_of_cons in Ho as [->|Ho]; [discriminate|].
    apply elem_of_cons in Ho as [->|Ho]; [discriminate|].
    by apply elem_of_nil in Ho.
  - split; [exact H1|exact (H2 "taskAdded" ∅)].
Defined.

(** ** getTasksByPriority: what the queued lambdas do *)

Lemma run_callback_hit cb s j t p :
  cells s !! cb_i cb = Some j → tasks s !! j = Some t →
  t !! "priority" = Some p →
  run_callback cb s
  = (Ok tt, if py_eq p (cb_priority cb)
            then set_heap (alter (λ results, results ++ [t]) (cb_results cb)) s
            else s).
Proof.
  intros Hc Ht Hp. unfold run_callback. unfold_M.
  rewrite Hc. simpl. rewrite Ht, Hp. by destruct (py_eq p (cb_priority cb)).
Qed.

Lemma for_each_same_callback k cb s j t p :
  cells s !! cb_i cb = Some j → tasks s !! j = Some t →
  t !! "priority" = Some p →
  (cb_results cb < length (heap s))%nat →
  ∃ s',
    for_each (replicate k cb) run_callback s = (Ok tt, s') ∧
    deref (cb_results cb) s'
    = deref (cb_results cb) s ++ (if py_eq p (cb_priority cb) then replicate k t else []) ∧
    tasks s' = tasks s ∧ completedTasks s' = completedTasks s ∧
    idCounter s' = idCounter s ∧ observers s' = observers s ∧
    trace s' = trace s ∧ ready s' = ready s ∧ loop_errors s' = loop_errors s.
Proof.
  intros Hc Ht Hp. revert s Hc Ht.
  induction k as [|k IH]; intros s Hc Ht Hlen; simpl.
  - exists s. unfold_M. split_and!; try done.
    destruct (py_eq p (cb_priority cb)); by rewrite app_nil_r.
  - unfold_M. rewrite (run_callback_hit cb s j t p Hc Ht Hp).
    destruct (py_eq p (cb_priority cb)) eqn:E.
    + destruct (IH (set_heap (alter (λ results, results ++ [t]) (cb_results cb)) s))
        as (s' & -> & Hd & Hrest); [done|done|by simpl; rewrite length_alter|].
      exists s'. split; [done|]. split; [|exact Hrest].
      rewrite Hd. unfold deref. simpl. rewrite list_lookup_alter_eq.
      destruct (lookup_lt_is_Some_2 (heap s) (cb_results cb) Hlen) as [l Hl].
      rewrite Hl. simpl. by rewrite <- app_assoc.
    + destruct (IH s) as (s' & -> & Hd & Hrest); [done..|].
      exists s'. by rewrite Hd.
Qed.

(** X11, [getTasksByPriority] and the event loop (lines 46-50): with
    nothing else queued, the list the call returns is empty at the return;
    once the loop has run the lambdas, each of which reads the last index,
    it holds the last open task once per open task if that task has the
    priority asked for, and nothing otherwise, whatever the priorities of
    the other tasks. *)
Theorem getTasksByPriority_last_task_only (priority p : value) (s : State)
    (front : list Task) (last : Task) :
  ready s = [] →
  tasks s = front ++ [last] →
  last !! "priority" = Some p →
  let r := getTasksByPriority priority s in
  let results := length (heap s) in
  r.1 = Ok results ∧
  deref results r.2 = [] ∧
  deref results (exec run_ready r.2)
  = (if py_eq p priority then replicate (length (tasks s)) last else []) ∧
  tasks (exec run_ready r.2) = tasks s ∧
  ready (exec run_ready r.2) = [].
Proof.
  intros Hr Hts Hp r results. subst r results.
  unfold getTasksByPriority. unfold_M.
  rewrite (for_each_call_soon
             {| cb_results := length (heap s); cb_i := length (cells s);
                cb_priority := priority |}).
  simpl. split; [done|]. split.
  { unfold deref. simpl. by rewrite lookup_app_r, Nat.sub_diag by lia. }
  assert (Hn : length (tasks s) = S (length front)).
  { rewrite Hts, length_app. simpl. lia. }
  set (cb := {| cb_results := length (heap s); cb_i := length (cells s);
                cb_priority := priority |}).
  destruct (for_each_same_callback (S (length front)) cb
              (set_ready (λ _, [])
                 (set_ready (λ q, q ++ replicate (S (length front)) cb)
                    (set_cells (λ c, <[length (cells s) := length front]> c)
                       (set_cells (λ c, c ++ [0%nat])
                          (set_heap (λ h, h ++ [[]]) s)))))
              (length front) last p)
    as (s' & Hrun & Hd & Ht & _ & _ & _ & _ & Hrd & _).
  { simpl. rewrite list_lookup_insert_eq; [done|]. rewrite length_app. simpl. lia. }
  { simpl. rewrite Hts. by rewrite list_lookup_middle. }
  { exact Hp. }
  { simpl. rewrite length_app. simpl. lia. }
  unfold run_ready. unfold_M. simpl. rewrite Hr, Hn. simpl.
  simpl in Hrun. unfold_M. fold cb. rewrite Hrun. simpl.
  subst cb. simpl in Hd. rewrite Hd, Ht, Hrd. simpl. split_and!; try done.
  unfold deref. simpl. by rewrite lookup_app_r, Nat.sub_diag by lia.
Qed.

Lemma getTasksByPriority_last_task_only_witness :
  let first := new_task (clock_from t2025) init (VStr "Water plants") (VStr "low") VNone in
  let last :=
    new_task (clock_from t2025)
      (exec (addTask fromisoformat_date (clock_from t2025)
               (VStr "Water plants") (Some (VStr "low")) None) init)
      (VStr "Review code") (VStr "high") VNone in
  tasks low_then_high = [first] ++ [last] ∧
  deref (length (heap low_then_high))
    (exec run_ready (getTasksByPriority (VStr "high") low_then_high).2)
  = [last; last] ∧
  deref (length (heap low_then_high))
    (exec run_ready (getTasksByPriority (VStr "low") low_then_high).2)
  = [].
Proof.
  intros first last.
  assert (Hr : ready low_then_high = []) by compute_done.
  assert (Hts : tasks low_then_high = [first] ++ [last]) by compute_done.
  assert (Hp : last !! "priority" = Some (VStr "high")) by compute_done.
  assert (Hlen : length (tasks low_then_high) = 2%nat) by (vm_compute; reflexivity).
  destruct (getTasksByPriority_last_task_only (VStr "high") (VStr "high") low_then_high
              [first] last Hr Hts Hp) as (_ & _ & Hhigh & _).
  destruct (getTasksByPriority_last_task_only (VStr "low") (VStr "high") low_then_high
              [first] last Hr Hts Hp) as (_ & _ & Hlow & _).
  rewrite Hlen in Hhigh.
  split; [exact Hts|]. split; [exact Hhigh|exact Hlow].
Defined.

(** ** bulkAddTasks: composition and effect *)

Lemma settle_all_app ps qs s :
  settle_all (ps ++ qs) s
  = ((settle_all ps s).1 ++ (settle_all qs (settle_all ps s).2).1,
     (settle_all qs (settle_all ps s).2).2).
Proof.
  revert s; induction ps as [|p ps IH]; intros s; simpl.
  - by destruct (settle_all qs s).
  - destruct (settle p s) as [r s']. rewrite IH.
    destruct (settle_all ps s') as [rs s'']. simpl.
    by destruct (settle_all qs s'').
Qed.

Section BulkAddTasksEffect.
Variable fromisoformat : string → result datetime.
Variable clock : nat → Z.

(** X12, [bulkAddTasks] on a concatenation (lines 80-89): the call always
    returns; on no items it returns the empty list and changes nothing; on
    [xs ++ ys] it returns the results for [xs] followed by the results for
    [ys] in the state the call on [xs] leaves, and ends in the state the two
    calls in a row end in. *)
Theorem bulkAddTasks_app (xs ys : list Task) (s : State) :
  bulkAddTasks fromisoformat clock [] s = (Ok [], s) ∧
  ∃ r1 r2,
    eval (bulkAddTasks fromisoformat clock xs) s = Ok r1 ∧
    eval (bulkAddTasks fromisoformat clock ys)
         (exec (bulkAddTasks fromisoformat clock xs) s) = Ok r2 ∧
    eval (bulkAddTasks fromisoformat clock (xs ++ ys)) s = Ok (r1 ++ r2) ∧
    exec (bulkAddTasks fromisoformat clock (xs ++ ys)) s
    = exec (bulkAddTasks fromisoformat clock ys)
           (exec (bulkAddTasks fromisoformat clock xs) s).
Proof.
  split; [done|]. unfold eval, exec. rewrite !bulkAddTasks_run. simpl.
  rewrite map_app, settle_all_app. simpl.
  eexists _, _. by split_and!.
Qed.

Lemma error_descriptor_id e : error_descriptor e !! "id" = None.
Proof. unfold error_descriptor. by rewrite lookup_singleton_ne. Qed.

Lemma settle_all_effect taskData s :
  let r := settle_all (map (addTask_of fromisoformat clock) taskData) s in
  tasks r.2 = tasks s ++ filter (λ t, is_Some (t !! "id")) r.1 ∧
  completedTasks r.2 = completedTasks s ∧
  observers r.2 = observers s ∧
  idCounter s ≤ idCounter r.2 ≤ idCounter s + Z.of_nat (length taskData) ∧
  idCounter s + Z.of_nat (length (filter (λ t, is_Some (t !! "id")) r.1)) ≤ idCounter r.2.
Proof.
  revert s; induction taskData as [|d ds IH]; intros s; simpl.
  - rewrite app_nil_r. split_and!; try done; lia.
  - pose proof (addTask_effect fromisoformat clock (dict_get d "title" VNone)
                  (Some (dict_get d "priority" VNone))
                  (Some (dict_get d "dueDate" VNone)) s) as (Hc & Ho & He).
    unfold settle, addTask_of. simpl in Hc, Ho, He.
    destruct (addTask _ _ _ _ _ s) as [[task|e] s1]; simpl in *.
    + destruct He as (due & _ & _ & _ & Htask & Ht & Hn).
      specialize (IH s1). destruct (settle_all _ s1) as [rs s2]. simpl in *.
      destruct IH as (IH1 & IH2 & IH3 & IH4 & IH5).
      rewrite filter_cons. rewrite decide_True.
      2:{ rewrite Htask. unfold new_task. by simplify_map_eq. }
      rewrite IH1, Ht, IH2, IH3, Hc, Ho, <- app_assoc. simpl.
      split_and!; try done; lia.
    + destruct He as (Ht & Hn & _).
      specialize (IH s1). destruct (settle_all _ s1) as [rs s2]. simpl in *.
      destruct IH as (IH1 & IH2 & IH3 & IH4 & IH5).
      rewrite filter_cons. rewrite decide_False.
      2:{ rewrite error_descriptor_id. by intros [? ?]. }
      rewrite IH1, Ht, IH2, IH3, Hc, Ho.
      split_and!; try done; lia.
Qed.

(** X13, what [bulkAddTasks] leaves behind (lines 80-89): the open
    collection has grown by exactly the tasks among the results, in the
    order of the results (an error descriptor has no id and is not
    appended); the completed collection and the observers are as before;
    the counter has advanced by at least the number of tasks created and
    at most the number of items. *)
Theorem bulkAddTasks_open_collection (taskData : list Task) (s : State) :
  ∃ results,
    eval (bulkAddTasks fromisoformat clock taskData) s = Ok results ∧
    tasks (exec (bulkAddTasks fromisoformat clock taskData) s)
    = tasks s ++ filter (λ t, is_Some (t !! "id")) results ∧
    completedTasks (exec (bulkAddTasks fromisoformat clock taskData) s)
    = completedTasks s ∧
    observers (exec (bulkAddTasks fromisoformat clock taskData) s) = observers s ∧
    idCounter s + Z.of_nat (length (filter (λ t, is_Some (t !! "id")) results))
    ≤ idCounter (exec (bulkAddTasks fromisoformat clock taskData) s)
    ≤ idCounter s + Z.of_nat (length taskData).
Proof.
  unfold eval, exec. rewrite bulkAddTasks_run. simpl.
  destruct (settle_all_effect taskData s) as (H1 & H2 & H3 & H4 & H5).
  eexists. split; [reflexivity|]. split_and!; try done; lia.
Qed.
(** C7: [bulkAddTasks] always returns, with one result per item and in
    the order of the items; no item stops the ones after it.  Item [i] is
    handed to [addTask] in the state the first [i] items have left.  When
    its due date evaluates and its title passes [validateTask] (a title with
    truth value and [__len__], such as a non-empty string), position [i]
    holds the task made of the item's entries, with the next id, and that
    task is in the open collection.  Otherwise position [i] holds
    [{'error': message}] with the message of the failure: ['False'] for a
    title without truth value (a missing or empty one), the
    [AttributeError]'s text for a title without [__len__], and for a due
    date that does not evaluate the text of what that raised, the
    parser's [ValueError] for a string it refuses. *)
Theorem bulkAddTasks_results (taskData : list Task) (s : State) :
  ∃ results,
    eval (bulkAddTasks fromisoformat clock taskData) s = Ok results ∧
    length results = length taskData ∧
    ∀ i d, taskData !! i = Some d →
      let title := dict_get d "title" VNone in
      let s_i := exec (bulkAddTasks fromisoformat clock (take i taskData)) s in
      match parse_dueDate fromisoformat (dict_get d "dueDate" VNone) with
      | Ok due =>
          if truthy title then
            if has_len title then
              ∃ task,
                results !! i = Some task ∧
                task !! "error" = None ∧
                task !! "id" = Some (VInt (idCounter s_i + 1)) ∧
                task !! "title" = Some title ∧
                task !! "priority" = Some (dict_get d "priority" VNone) ∧
                task !! "dueDate" = Some due ∧
                task !! "completed" = Some (VBool false) ∧
                task ∈ tasks (exec (bulkAddTasks fromisoformat clock taskData) s)
            else
              results !! i
              = Some {["error" := VStr ("'" +:+ type_name title
                                        +:+ "' object has no attribute '__len__'")]}
          else results !! i = Some {["error" := VStr "False"]}
      | Raise e =>
          results !! i = Some {["error" := VStr (str_exn e)]} ∧
          ∀ str msg, dict_get d "dueDate" VNone = VStr str →
                     fromisoformat str = Raise (ValueError msg) →
                     results !! i = Some {["error" := VStr msg]}
      end ∧
      (d !! "dueDate" = None →
       (∀ t, d !! "title" = Some (VStr t) → t ≠ "" →
          ∃ task,
            results !! i = Some task ∧
            task !! "error" = None ∧
            task !! "id" = Some (VInt (idCounter s_i + 1)) ∧
            task !! "title" = Some (VStr t) ∧
            task !! "dueDate" = Some VNone) ∧
       (d !! "title" = None ∨ d !! "title" = Some (VStr "") →
        results !! i = Some {["error" := VStr "False"]})).
Proof.
  unfold eval, exec. rewrite bulkAddTasks_run. simpl.
  eexists. split; [reflexivity|]. split.
  { by rewrite settle_all_length, length_map. }
  intros i d Hd. rewrite bulkAddTasks_run. simpl.
  set (s_i := (settle_all (map (addTask_of fromisoformat clock) (take i taskData)) s).2).
  assert (Hlook : (settle_all (map (addTask_of fromisoformat clock) taskData) s).1 !! i
                  = Some (settle (addTask_of fromisoformat clock d) s_i).1).
  { subst s_i. rewrite (settle_all_lookup _ _ i (addTask_of fromisoformat clock d)).
    - by rewrite <- fmap_take.
    - by rewrite list_lookup_fmap, Hd. }
  unfold settle, addTask_of in Hlook.
  match goal with |- ?A ∧ _ => assert (HA : A) end.
  { destruct (parse_dueDate fromisoformat (dict_get d "dueDate" VNone)) as [due|e] eqn:Hp.
    - destruct (addTask_run fromisoformat clock (dict_get d "title" VNone)
                  (Some (dict_get d "priority" VNone))
                  (Some (dict_get d "dueDate" VNone)) due s_i Hp) as (h & es & Hrun).
      rewrite Hrun in Hlook. clear Hrun.
      destruct (truthy (dict_get d "title" VNone)); simpl in Hlook; [|done].
      destruct (has_len (dict_get d "title" VNone)); simpl in Hlook; [|done].
      eexists. split; [exact Hlook|]. unfold new_task.
      split_and!; try by simplify_map_eq.
      destruct (settle_all_effect taskData s) as (-> & _).
      apply elem_of_app. right. apply list_elem_of_filter. split.
      + unfold new_task. eexists. by simplify_map_eq.
      + by eapply list_elem_of_lookup_2.
    - rewrite (addTask_dueDate_raises fromisoformat clock (dict_get d "title" VNone)
                 (Some (dict_get d "priority" VNone))
                 (Some (dict_get d "dueDate" VNone)) e s_i Hp) in Hlook.
      split; [exact Hlook|].
      intros str msg Hstr Hmsg.
      assert (e = ValueError msg) as ->; [|exact Hlook].
      unfold parse_dueDate in Hp. rewrite Hstr, Hmsg in Hp. simpl in Hp.
      destruct (negb (str =? "")%string); by inversion Hp. }
  split; [exact HA|]. clear Hlook.
  intros Hdd. unfold dict_get in HA. rewrite Hdd in HA. simpl in HA. split.
  - intros t Ht Hne. rewrite Ht in HA. cbv beta iota delta [default from_option id] in HA.
    rewrite (proj2 (truthy_VStr t) Hne) in HA. simpl in HA.
    destruct HA as (task & H1 & H2 & H3 & H4 & _ & H5 & _). by exists task.
  - intros [Ht|Ht]; rewrite Ht in HA; exact HA.
Qed.
End BulkAddTasksEffect.

(** ** getTaskStats and getOverdueTasks: counts and failures *)

Lemma comprehension_raises {A} (cond : A → result bool) (xs : list A) (x : A) :
  x ∈ xs → (∃ e, cond x = Raise e) → ∃ e, comprehension cond xs = Raise e.
Proof.
  intros Hx [e He]. induction xs as [|y xs IH]; [by apply elem_of_nil in Hx|].
  simpl. apply elem_of_cons in Hx as [->|Hx].
  - rewrite He. by exists e.
  - destruct (cond y) as [b|e']; simpl; [|by exists e'].
    destruct (IH Hx) as [e'' ->]. by exists e''.
Qed.

Section Stats.
Variable clock : nat → Z.

(** X14, [getTaskStats] when it returns (lines 91-101): on a manager that
    holds a task and each of whose open tasks has a [dueDate] that is
    [None] or a naive [datetime] and a boolean [completed], the call
    returns; [pending] and [completed] are the sizes of the two
    collections, [total] is their sum, [overdue] is the number of open
    tasks that are overdue and not completed, hence at most [pending]; the
    call has read the clock once and changed nothing else. *)
Theorem getTaskStats_counts_add_up (s : State) :
  Forall well_typed (tasks s) →
  (0 < length (tasks s) + length (completedTasks s))%nat →
  ∃ st,
    getTaskStats clock s = (Ok st, set_ticks S s) ∧
    pending st = Z.of_nat (length (tasks s)) ∧
    completed st = Z.of_nat (length (completedTasks s)) ∧
    total st = pending st + completed st ∧
    overdue st
    = Z.of_nat (length (filter (λ t, overdue_atb (clock (ticks s)) t) (tasks s))) ∧
    0 ≤ overdue st ≤ pending st.
Proof.
  intros Hwt Hpos. unfold getTaskStats, getOverdueTasks, datetime_now. unfold_M.
  simpl. rewrite (comprehension_filter _ (overdue_atb (clock (ticks s)))).
  2:{ intros t Ht. apply is_overdue_well_typed.
      rewrite Forall_forall in Hwt. by apply Hwt. }
  simpl. unfold truediv.
  destruct (Z.eqb_spec (Z.of_nat (length (tasks s)) +
                        Z.of_nat (length (completedTasks s))) 0) as [H0|_]; [lia|].
  simpl. eexists. split; [reflexivity|]. simpl.
  rewrite (Permutation_length (sorted_Permutation dueDate_key _)).
  pose proof (length_filter (λ t, overdue_atb (clock (ticks s)) t) (tasks s)).
  split_and!; try done; lia.
Qed.

(** X15, a due date of the wrong kind (lines 76, 96): when some open task
    has a due date that is true but no naive [datetime] (a non-empty
    string, as [updateTask] may have stored, or an aware [datetime]),
    [getOverdueTasks] raises and returns no list, and [getTaskStats],
    which calls it, raises the same exception. *)
Theorem getOverdueTasks_ill_typed_dueDate (s : State) (t : Task) (v : value) :
  t ∈ tasks s →
  t !! "dueDate" = Some v → truthy v = true → (∀ d, v ≠ VDate d) →
  ∃ e,
    getOverdueTasks clock s = (Raise e, set_ticks S s) ∧
    getTaskStats clock s = (Raise e, set_ticks S s).
Proof.
  intros Ht Hv Htr Hnd.
  destruct (comprehension_raises (is_overdue (clock (ticks s))) (tasks s) t Ht)
    as [e He].
  { unfold is_overdue, subscript. rewrite Hv. simpl. rewrite Htr. simpl.
    destruct v; try by eexists. by destruct (Hnd d). }
  exists e. unfold getTaskStats, getOverdueTasks, datetime_now. unfold_M. simpl.
  by rewrite He.
Qed.
End Stats.

Lemma getTaskStats_counts_add_up_witness :
  Forall well_typed (tasks three_tasks) ∧
  ∃ st,
    getTaskStats (clock_from t2025) three_tasks = (Ok st, set_ticks S three_tasks) ∧
    pending st = Z.of_nat (length (tasks three_tasks)) ∧
    total st = pending st + completed st.
Proof.
  assert (H : Forall well_typed (tasks three_tasks)).
  { apply well_typedb_correct. vm_compute. reflexivity. }
  split; [exact H|].
  destruct (getTaskStats_counts_add_up (clock_from t2025) three_tasks H)
    as (st & H1 & H2 & _ & H3 & _).
  { vm_compute. lia. }
  exists st. split; [exact H1|]. split; [exact H2|exact H3].
Defined.

Lemma getOverdueTasks_ill_typed_dueDate_witness :
  ∃ e,
    getOverdueTasks (clock_from t2025) string_dueDate
    = (Raise e, set_ticks S string_dueDate) ∧
    getTaskStats (clock_from t2025) string_dueDate
    = (Raise e, set_ticks S string_dueDate).
Proof.
  apply (getOverdueTasks_ill_typed_dueDate (clock_from t2025) string_dueDate
           (<["dueDate" := VStr "2024-02-01"]>
              (new_task (clock_from t2025) init (VStr "Write report") (VStr "high") VNone))
           (VStr "2024-02-01")).
  - replace (tasks string_dueDate)
      with [<["dueDate" := VStr "2024-02-01"]>
              (new_task (clock_from t2025) init (VStr "Write report") (VStr "high") VNone)]
      by compute_done.
    apply list_elem_of_here.
  - compute_done.
  - reflexivity.
  - intros d Hd. discriminate Hd.
Defined.

(** ** searchTasks: substrings *)

Lemma prefix_spec (a b : string) :
  String.prefix a b = true ↔ ∃ post, b = a +:+ post.
Proof.
  revert b; induction a as [|c a IH]; intros b; simpl.
  - split; [intros _; by exists b|intros _; by destruct b].
  - destruct b as [|c' b]; simpl.
    + split; [done|]. by intros [post H].
    + destruct (ascii_dec c c') as [->|Hne].
      * rewrite IH. split; intros [post H]; exists post; [by rewrite H|].
        by injection H.
      * split; [done|]. intros [post H]. injection H as <- _. done.
Qed.

(** [contains] is Python's [in] on strings: the needle occurs somewhere. *)
Lemma contains_spec (needle hay : string) :
  contains needle hay = true ↔ ∃ pre post, hay = pre +:+ needle +:+ post.
Proof.
  induction hay as [|c hay IH].
  - change (contains needle "") with (String.prefix needle "" || false).
    rewrite orb_false_r, prefix_spec. split.
    + intros [post H]. by exists "", post.
    + intros (pre & post & H). destruct pre; simpl in H; [by exists post|done].
  - change (contains needle (String c hay))
      with (String.prefix needle (String c hay) || contains needle hay).
    rewrite orb_true_iff, prefix_spec, IH. split.
    + intros [[post H]|(pre & post & H)].
      * by exists "", post.
      * exists (String c pre), post. simpl. by rewrite H.
    + intros (pre & post & H). destruct pre as [|c' pre]; simpl in H.
      * left. by exists post.
      * right. injection H as _ H. by exists pre, post.
Qed.

Lemma contains_empty (hay : string) : contains "" hay = true.
Proof. apply contains_spec. by exists "", hay. Qed.

Lemma filter_all {A} (P : A → Prop) `{∀ x, Decision (P x)} (l : list A) :
  Forall P l → filter P l = l.
Proof.
  induction 1 as [|x l Hx Hl IH]; [done|].
  by rewrite filter_cons, decide_True, IH.
Qed.

Section Substring.
Variable str_lower : string → string.

Lemma contains_in_empty (needle : string) : contains needle "" = true → needle = "".
Proof.
  intros (pre & post & H)%contains_spec.
  destruct pre; [|done]. simpl in H. by destruct needle.
Qed.

(** The condition of [searchTasks], on a task whose fields are strings,
    says that the lowered query occurs in the lowered title or in the
    lowered description. *)
Lemma matchesb_spec (query : string) (t : Task) :
  str_lower "" = "" → searchable t →
  matchesb str_lower query t = true ↔
  ∃ text pre post,
    (t !! "title" = Some (VStr text) ∨ t !! "description" = Some (VStr text)) ∧
    str_lower text = pre +:+ str_lower query +:+ post.
Proof.
  intros H0 [[title Htitle] Hd]. unfold matchesb, dict_get. rewrite Htitle. split.
  - destruct Hd as [Hd|[d Hd]]; rewrite Hd;
      cbv beta iota delta [default from_option id];
      intros [Hm|Hm]%orb_true_iff.
    + apply contains_spec in Hm as (pre & post & Hm). exists title, pre, post. auto.
    + rewrite H0 in Hm. apply contains_in_empty in Hm.
      exists title, "", (str_lower title). rewrite Hm. auto.
    + apply contains_spec in Hm as (pre & post & Hm). exists title, pre, post. auto.
    + apply contains_spec in Hm as (pre & post & Hm). exists d, pre, post. auto.
  - intros (text & pre & post & Hk & Hsub).
    assert (Hc : contains (str_lower query) (str_lower text) = true).
    { apply contains_spec. by exists pre, post. }
    destruct Hk as [Hk|Hk].
    + injection Hk as ->.
      destruct Hd as [->|[d ->]]; cbv beta iota delta [default from_option id]; by rewrite Hc.
    + rewrite Hk. cbv beta iota delta [default from_option id]. rewrite Hc. by rewrite orb_true_r.
Qed.

(** X16, what [searchTasks] finds (lines 103-104): on open tasks whose
    title and description are strings, the call returns, in the order of
    the open collection, exactly the tasks for which [query.lower()] is a
    substring of [title.lower()] or of [description.lower()], whatever
    [str.lower] does to the letters (of it only [''.lower() == ''] is
    used); a query that lowers to the empty string returns every open
    task. *)
Theorem searchTasks_substring (query : string) (s : State) :
  str_lower "" = "" →
  Forall searchable (tasks s) →
  ∃ l,
    searchTasks str_lower query s = (Ok l, s) ∧
    sublist l (tasks s) ∧
    (∀ t, t ∈ l ↔
          t ∈ tasks s ∧
          ∃ text pre post,
            (t !! "title" = Some (VStr text) ∨ t !! "description" = Some (VStr text)) ∧
            str_lower text = pre +:+ str_lower query +:+ post) ∧
    (str_lower query = "" → l = tasks s).
Proof.
  intros H0 Hs. unfold searchTasks. unfold_M. simpl.
  rewrite (comprehension_filter _ (matchesb str_lower query)).
  2:{ intros t Ht. apply search_match_searchable.
      rewrite Forall_forall in Hs. by apply Hs. }
  rewrite Forall_forall in Hs.
  eexists. split; [reflexivity|]. split_and!.
  - apply sublist_filter.
  - intros t. rewrite list_elem_of_filter. split.
    + intros [Hm Ht]. split; [done|].
      apply (matchesb_spec query t H0 (Hs t Ht)). by apply Is_true_true.
    + intros [Ht Hm]. split; [|done].
      apply Is_true_true. by apply (matchesb_spec query t H0 (Hs t Ht)).
  - intros Hq. apply filter_all. apply Forall_forall. intros t Ht.
    apply Is_true_true. apply (matchesb_spec query t H0 (Hs t Ht)).
    destruct (Hs t Ht) as [[title Htitle] _].
    exists title, "", (str_lower title). rewrite Hq. auto.
Qed.
End Substring.

(** The three tasks have string titles and no description. *)
Lemma three_tasks_searchable : Forall searchable (tasks three_tasks).
Proof.
  apply Forall_forall. intros t Ht.
  replace (tasks three_tasks)
    with [new_task (clock_from t2025) init (VStr "Write report") (VStr "high")
            (VDate 1709251200000000);
          new_task (clock_from t2025)
            (exec (addTask fromisoformat_date (clock_from t2025) (VStr "Write report")
                     (Some (VStr "high")) (Some (VStr "2024-03-01"))) init)
            (VStr "Read book") (VStr "medium") VNone;
          new_task (clock_from t2025)
            (exec (addTask fromisoformat_date (clock_from t2025) (VStr "Read book")
                     None None)
               (exec (addTask fromisoformat_date (clock_from t2025) (VStr "Write report")
                        (Some (VStr "high")) (Some (VStr "2024-03-01"))) init))
            (VStr "File taxes") (VStr "high") (VDate 1705276800000000)]
    in Ht by compute_done.
  unfold searchable, new_task.
  repeat (apply elem_of_cons in Ht as [->|Ht]);
    [| | |by apply elem_of_nil in Ht];
    (split; [eexists; by simplify_map_eq|left; by simplify_map_eq]).
Qed.

Lemma searchTasks_substring_witness :
  lower "" = "" ∧
  Forall searchable (tasks three_tasks) ∧
  ∃ l,
    searchTasks lower "RE" three_tasks = (Ok l, three_tasks) ∧
    sublist l (tasks three_tasks) ∧
    (∀ t, t ∈ l ↔
          t ∈ tasks three_tasks ∧
          ∃ text pre post,
            (t !! "title" = Some (VStr text) ∨ t !! "description" = Some (VStr text)) ∧
            lower text = pre +:+ "re" +:+ post).
Proof.
  split; [reflexivity|]. split; [exact three_tasks_searchable|].
  destruct (searchTasks_substring lower "RE" three_tasks eq_refl three_tasks_searchable)
    as (l & H1 & H2 & H3 & _).
  exists l. split; [exact H1|]. split; [exact H2|exact H3].
Defined.

(** ** Every call is made of four kinds of steps *)

Section Steps.
Variable fromisoformat : string → result datetime.
Variable clock : nat → Z.
Variable str_lower : string → string.
Variable ids_kept : bool.

Lemma addTask_steps title priority dueDate s :
  step clock ids_kept s (exec (addTask fromisoformat clock title priority dueDate) s).
Proof.
  unfold exec.
  pose proof (addTask_effect fromisoformat clock title priority dueDate s)
    as (Hc & _ & He). simpl in Hc, He.
  destruct (addTask fromisoformat clock title priority dueDate s) as [[task|e] s'];
    simpl in *.
  - destruct He as (due & _ & _ & _ & -> & Ht & Hn).
    by eapply step_add.
  - destruct He as (Ht & Hn & _). apply step_frame; [done..|lia].
Qed.

Lemma settle_all_steps taskData s :
  rtc (step clock ids_kept) s
    (settle_all (map (addTask_of fromisoformat clock) taskData) s).2.
Proof.
  revert s; induction taskData as [|d ds IH]; intros s; simpl; [done|].
  pose proof (addTask_steps (dict_get d "title" VNone)
                (Some (dict_get d "priority" VNone))
                (Some (dict_get d "dueDate" VNone)) s) as H1.
  unfold settle, addTask_of, exec in *.
  destruct (addTask _ _ _ _ _ s) as [[task|e] s']; simpl in H1;
    specialize (IH s'); destruct (settle_all _ s'); simpl in *;
    by eapply rtc_l.
Qed.

Lemma completeTask_steps taskId s :
  step clock ids_kept s (exec (completeTask clock taskId) s).
Proof.
  unfold exec.
  destruct (find_index taskId (tasks s) 0) as [[i|]|e] eqn:Hf.
  - destruct (find_index_Some _ _ _ _ Hf) as (j & t & -> & Ht). simpl in *.
    rewrite (completeTask_found clock taskId s j t Hf Ht). simpl.
    eapply (step_move _ _ _ _ (take j (tasks s)) t (drop (S j) (tasks s))); simpl.
    + by rewrite take_drop_middle.
    + apply delete_take_drop.
    + done.
    + done.
  - rewrite (completeTask_absent clock taskId s Hf). by apply step_frame.
  - rewrite (completeTask_raises clock taskId s e Hf). by apply step_frame.
Qed.

Lemma updateTask_steps taskId updates s :
  (ids_kept = true → updates !! "id" = None) →
  step clock ids_kept s (exec (updateTask taskId updates) s).
Proof.
  intros Hid. unfold exec.
  destruct (find_task taskId (tasks s) 0) as [[[i task]|]|e] eqn:Hf.
  - destruct (find_task_Some _ _ _ _ _ Hf) as (j & v & -> & Ht & _). simpl in *.
    rewrite (updateTask_run taskId updates s j task Hf). simpl.
    eapply (step_patch _ _ _ _ (take j (tasks s)) task (drop (S j) (tasks s)) updates);
      simpl; try done.
    + by rewrite take_drop_middle.
    + rewrite <- (take_drop_middle (tasks s) j task Ht) at 1.
      assert (Hl : length (take j (tasks s)) = j).
      { apply length_take_le. apply lookup_lt_Some in Ht. lia. }
      rewrite <- Hl at 1. replace (length (take j (tasks s)))
        with (length (take j (tasks s)) + 0)%nat by lia.
      by rewrite insert_app_r.
  - rewrite (updateTask_not_found taskId updates s Hf). by apply step_frame.
  - rewrite (updateTask_raises taskId updates s e Hf). by apply step_frame.
Qed.

Lemma perform_steps o s :
  (ids_kept = true → keeps_ids o) →
  rtc (step clock ids_kept) s (perform fromisoformat clock str_lower o s).
Proof.
  intros Hk. destruct o; simpl in *.
  - apply rtc_once, addTask_steps.
  - unfold exec. rewrite bulkAddTasks_run. simpl. apply settle_all_steps.
  - apply rtc_once, completeTask_steps.
  - by apply rtc_once, updateTask_steps.
  - apply rtc_once. by apply step_frame.
  - apply rtc_once. unfold exec, removeObserver. unfold_M.
    destruct (existsb _ _); by apply step_frame.
  - apply rtc_once. unfold exec.
    destruct (getTasksByPriority_run priority s)
      as (s' & -> & _ & _ & Ht & Hc & Hn & _). simpl.
    apply step_frame; [done..|lia].
  - rewrite getOverdueTasks_state. apply rtc_once. by apply step_frame.
  - rewrite getTaskStats_state. apply rtc_once. by apply step_frame.
  - apply rtc_once. by apply step_frame.
  - apply rtc_once. unfold exec. destruct (run_ready_run s) as (h & es & ->).
    by apply step_frame.
Qed.

(** What holds at first and survives every step holds after any calls. *)
Lemma after_invariant (I : State → Prop) (ops : list op) :
  I init →
  (∀ s s', step clock ids_kept s s' → I s → I s') →
  (ids_kept = true → Forall keeps_ids ops) →
  I (after fromisoformat clock str_lower ops).
Proof.
  intros Hinit Hstep Hk. unfold after.
  assert (H : ∀ s, I s → I (foldl (λ s o, perform fromisoformat clock str_lower o s) s ops)).
  { induction ops as [|o ops IH]; intros s Hs; simpl; [done|].
    apply IH.
    - intros Hb. specialize (Hk Hb). by apply Forall_cons in Hk as [_ ?].
    - assert (Ho : ids_kept = true → keeps_ids o).
      { intros Hb. specialize (Hk Hb). by apply Forall_cons in Hk as [? _]. }
      pose proof (perform_steps o s Ho) as Hr.
      induction Hr as [|s1 s2 s3 H12 _ IH']; [done|]. apply IH'. by eapply Hstep. }
  by apply H.
Qed.
End Steps.

(** ** Invariants of the two collections *)

Lemma ids_snoc ts t : ids (ts ++ [t]) = ids ts ++ [t !! "id"].
Proof. unfold ids, column. by rewrite fmap_app. Qed.

Lemma ids_middle l1 t l2 : ids (l1 ++ t :: l2) = ids l1 ++ t !! "id" :: ids l2.
Proof. unfold ids, column. by rewrite fmap_app. Qed.

Section OpenOrder.
Variable clock : nat → Z.

Lemma open_in_order_step s s' :
  step clock true s s' → open_in_order s → open_in_order s'.
Proof.
  intros Hstep [Hs Hall]. unfold open_in_order.
  destruct Hstep as [s s' Ht Hc Hn|s s' title priority due Ht Hc Hn
                    |s s' l1 t l2 Hts Ht Hc Hn|s s' l1 t l2 updates Hid Hts Ht Hc Hn].
  - rewrite Ht. split; [done|]. eapply Forall_impl; [exact Hall|].
    intros o (n & -> & Hle). exists n. split; [done|lia].
  - rewrite Ht, ids_snoc, Hn.
    replace (new_task clock s title priority due !! "id")
      with (Some (VInt (idCounter s + 1))) by (unfold new_task; by simplify_map_eq).
    split.
    + apply StronglySorted_app_2; [|done|repeat constructor].
      intros x1 x2 Hx1 Hx2%list_elem_of_singleton. subst x2.
      rewrite Forall_forall in Hall. destruct (Hall x1 Hx1) as (n & -> & Hle).
      exists n, (idCounter s + 1). split_and!; [done..|lia].
    + apply Forall_app. split.
      * eapply Forall_impl; [exact Hall|].
        intros o (n & -> & Hle). exists n. split; [done|lia].
      * repeat constructor. exists (idCounter s + 1). split; [done|lia].
  - rewrite Hts, ids_middle in Hs, Hall. rewrite Ht, ids_app, Hn.
    apply StronglySorted_app in Hs as (H12 & H1 & H2).
    apply StronglySorted_cons in H2 as [_ H2].
    apply Forall_app in Hall as [Ha1 Ha2]. apply Forall_cons in Ha2 as [_ Ha2].
    split.
    + apply StronglySorted_app_2; [|done..].
      intros x1 x2 Hx1 Hx2. apply H12; [done|]. by apply list_elem_of_further.
    + apply Forall_app. by split.
  - assert (Hi : ids (tasks s') = ids (tasks s)).
    { rewrite Ht, Hts, !ids_middle. by rewrite lookup_union_r by auto. }
    by rewrite Hi, Hn.
Qed.
End OpenOrder.

Section Invariants.
Variable fromisoformat : string → result datetime.
Variable clock : nat → Z.
Variable str_lower : string → string.

(** X17, creation order (lines 13, 20, 23, 41): after any calls among which
    no [updateTask] assigns the key [id], the ids of the open collection
    are integers in strictly increasing order, none above the counter:
    open tasks stay in the order in which they were created. *)
Theorem open_collection_in_creation_order (ops : list op) :
  Forall keeps_ids ops →
  StronglySorted id_lt (ids (tasks (after fromisoformat clock str_lower ops))) ∧
  ∀ o, o ∈ ids (tasks (after fromisoformat clock str_lower ops)) →
       ∃ n, o = Some (VInt n) ∧ 1 ≤ n ≤ idCounter (after fromisoformat clock str_lower ops).
Proof.
  intros Hk.
  assert (H : open_in_order (after fromisoformat clock str_lower ops) ∧
              Forall (λ o, ∃ n, o = Some (VInt n) ∧ 1 ≤ n)
                     (ids (tasks (after fromisoformat clock str_lower ops))) ∧
              0 ≤ idCounter (after fromisoformat clock str_lower ops)).
  { apply (after_invariant fromisoformat clock str_lower true
             (λ s, open_in_order s ∧
                   Forall (λ o, ∃ n, o = Some (VInt n) ∧ 1 ≤ n) (ids (tasks s)) ∧
                   0 ≤ idCounter s)); [| |done].
    - split; [split; constructor|]. split; [constructor|done].
    - intros s s' Hstep (Ho & Hpos & Hc).
      split; [by eapply open_in_order_step|].
      destruct Hstep as [s s' Ht Hc' Hn|s s' title priority due Ht Hc' Hn
                        |s s' l1 t l2 Hts Ht Hc' Hn|s s' l1 t l2 updates Hid Hts Ht Hc' Hn].
      + rewrite Ht. split; [done|lia].
      + rewrite Ht, ids_snoc. split; [|lia]. apply Forall_app. split; [done|].
        repeat constructor. exists (idCounter s + 1).
        split; [unfold new_task; by simplify_map_eq|lia].
      + rewrite Hts, ids_middle in Hpos. rewrite Ht, ids_app.
        apply Forall_app in Hpos as [H1 H2]. apply Forall_cons in H2 as [_ H2].
        split; [|lia]. apply Forall_app. by split.
      + split; [|lia]. rewrite Hts, ids_middle in Hpos. rewrite Ht, ids_middle.
        by rewrite lookup_union_r by auto. }
  destruct H as ([Hs Hall] & Hpos & _). split; [done|].
  intros o Ho. rewrite Forall_forall in Hall, Hpos.
  destruct (Hall o Ho) as (n & -> & Hle). destruct (Hpos _ Ho) as (m & [= <-] & Hm).
  exists n. split; [done|lia].
Qed.

(** X18, the completed collection (lines 38-41): after any calls whatever,
    every task in the completed collection has [completed] set to [True]
    and carries a [completedAt] time; and no call removes or changes a
    completed task: the collection before a call is a prefix of the
    collection after it. *)
Theorem completed_collection_append_only (ops : list op) (o : op) :
  let s := after fromisoformat clock str_lower ops in
  Forall flagged (completedTasks s) ∧
  completedTasks s `prefix_of` completedTasks (perform fromisoformat clock str_lower o s).
Proof.
  intros s. subst s. split.
  - apply (after_invariant fromisoformat clock str_lower false
             (λ s, Forall flagged (completedTasks s))); [constructor| |done].
    intros s s' Hstep Hf.
    destruct Hstep as [s s' Ht Hc Hn|s s' title priority due Ht Hc Hn
                      |s s' l1 t l2 Hts Ht Hc Hn|s s' l1 t l2 updates Hid Hts Ht Hc Hn];
      rewrite Hc; try done.
    apply Forall_app. split; [done|]. repeat constructor.
    + unfold completed_at. by simplify_map_eq.
    + eexists. unfold completed_at. by simplify_map_eq.
  - pose proof (perform_steps fromisoformat clock str_lower false o
                  (after fromisoformat clock str_lower ops)) as Hr.
    specialize (Hr ltac:(done)).
    induction Hr as [|s1 s2 s3 H12 _ IH]; [done|].
    etrans; [|exact IH].
    destruct H12 as [s s' Ht Hc Hn|s s' title priority due Ht Hc Hn
                    |s s' l1 t l2 Hts Ht Hc Hn|s s' l1 t l2 updates Hid Hts Ht Hc Hn];
      rewrite Hc; try done.
    by apply prefix_app_r.
Qed.
End Invariants.

Lemma open_collection_in_creation_order_witness :
  Forall keeps_ids plain_calls ∧
  StronglySorted id_lt (ids (tasks (after fromisoformat_date (clock_from t2025) lower plain_calls))).
Proof.
  assert (H : Forall keeps_ids plain_calls).
  { unfold plain_calls. repeat constructor. }
  split; [exact H|].
  exact (proj1 (open_collection_in_creation_order fromisoformat_date
                  (clock_from t2025) lower plain_calls H)).
Defined.

(** ** Keys are never lost, so lookups by id go through *)

Lemma has_fields_new_task clock s title priority due :
  has_fields (new_task clock s title priority due).
Proof. unfold has_fields, new_task. repeat constructor; eexists; by simplify_map_eq. Qed.

Lemma has_fields_insert key v t : has_fields t → has_fields (<[key := v]> t).
Proof.
  unfold has_fields. intros H. eapply Forall_impl; [exact H|]. intros k Hk.
  apply lookup_insert_is_Some. destruct (decide (key = k)); auto.
Qed.

Lemma has_fields_union updates t : has_fields t → has_fields (updates ∪ t).
Proof.
  unfold has_fields. intros H. eapply Forall_impl; [exact H|]. intros k Hk.
  apply lookup_union_is_Some. by right.
Qed.

Lemma has_fields_id t : has_fields t → is_Some (t !! "id").
Proof. intros H. by apply Forall_cons in H as [? _]. Qed.

Lemma find_index_returns taskId ts k :
  Forall has_fields ts → ∃ r, find_index taskId ts k = Ok r.
Proof.
  intros H. revert k. induction H as [|t ts Ht Hts IH]; intros k; simpl.
  - by eexists.
  - destruct (has_fields_id t Ht) as [v Hv]. unfold subscript. rewrite Hv. simpl.
    destruct (py_eq v taskId); [by eexists|apply IH].
Qed.

Lemma find_task_returns taskId ts k :
  Forall has_fields ts → ∃ r, find_task taskId ts k = Ok r.
Proof.
  intros H. revert k. induction H as [|t ts Ht Hts IH]; intros k; simpl.
  - by eexists.
  - destruct (has_fields_id t Ht) as [v Hv]. unfold subscript. rewrite Hv. simpl.
    destruct (py_eq v taskId); [by eexists|apply IH].
Qed.

Section Fields.
Variable fromisoformat : string → result datetime.
Variable clock : nat → Z.
Variable str_lower : string → string.

(** X19, keys are never lost (lines 12-19, 38-39, 56): after any calls
    whatever, every task in either collection still has the six entries
    [addTask] gave it, since a patch and [completeTask] only add or
    overwrite entries; therefore [completeTask] and [updateTask] never
    raise ([KeyError]) on such a manager, whatever id they are given. *)
Theorem tasks_keep_their_fields (ops : list op) (taskId : value) (updates : Task) :
  let s := after fromisoformat clock str_lower ops in
  Forall has_fields (tasks s ++ completedTasks s) ∧
  (∃ r, eval (completeTask clock taskId) s = Ok r) ∧
  eval (updateTask taskId updates) s = Ok tt.
Proof.
  intros s. subst s.
  assert (H : Forall has_fields (tasks (after fromisoformat clock str_lower ops)) ∧
              Forall has_fields (completedTasks (after fromisoformat clock str_lower ops))).
  { apply (after_invariant fromisoformat clock str_lower false
             (λ s, Forall has_fields (tasks s) ∧ Forall has_fields (completedTasks s)));
      [split; constructor| |done].
    intros s s' Hstep [Ho Hc].
    destruct Hstep as [s s' Ht Hc' Hn|s s' title priority due Ht Hc' Hn
                      |s s' l1 t l2 Hts Ht Hc' Hn|s s' l1 t l2 updates' Hid Hts Ht Hc' Hn];
      rewrite Ht, Hc'.
    - done.
    - split; [|done]. apply Forall_app. split; [done|].
      constructor; [apply has_fields_new_task|constructor].
    - rewrite Hts in Ho. apply Forall_app in Ho as [H1 H2].
      apply Forall_cons in H2 as [Ht' H2]. split.
      + apply Forall_app. by split.
      + apply Forall_app. split; [done|]. constructor; [|constructor].
        unfold completed_at. by do 2 apply has_fields_insert.
    - rewrite Hts in Ho. apply Forall_app in Ho as [H1 H2].
      apply Forall_cons in H2 as [Ht' H2]. split; [|done].
      apply Forall_app. split; [done|]. constructor; [|done].
      by apply has_fields_union. }
  destruct H as [Ho Hc]. split_and!.
  - apply Forall_app. by split.
  - unfold eval.
    destruct (find_index_returns taskId _ 0 Ho) as [[i|] Hf].
    + destruct (find_index_Some _ _ _ _ Hf) as (j & t & -> & Ht). simpl in *.
      rewrite (completeTask_found clock taskId _ j t Hf Ht). by eexists.
    + rewrite (completeTask_absent clock taskId _ Hf). by eexists.
  - unfold eval.
    destruct (find_task_returns taskId _ 0 Ho) as [[[i t]|] Hf].
    + by rewrite (updateTask_run taskId updates _ i t Hf).
    + by rewrite (updateTask_not_found taskId updates _ Hf).
Qed.

(** X20, nothing is deleted and the counter never goes back (lines 20, 23,
    40-41): no call lowers the id counter or the number of tasks the two
    collections hold together; and after any calls whatever that number is
    at most the counter, which starts at zero. *)
Theorem counter_and_tasks_never_decrease (ops : list op) (o : op) (s : State) :
  (idCounter s ≤ idCounter (perform fromisoformat clock str_lower o s) ∧
   held s ≤ held (perform fromisoformat clock str_lower o s)) ∧
  0 ≤ held (after fromisoformat clock str_lower ops) ≤ idCounter (after fromisoformat clock str_lower ops).
Proof.
  assert (Hstep : ∀ s s', step clock false s s' →
            idCounter s ≤ idCounter s' ∧ held s ≤ held s' ∧
            held s' - held s ≤ idCounter s' - idCounter s).
  { intros s1 s2 H. unfold held.
    destruct H as [a b Ht Hc Hn|a b title priority due Ht Hc Hn
                  |a b l1 t l2 Hts Ht Hc Hn|a b l1 t l2 updates Hid Hts Ht Hc Hn];
      rewrite Ht, Hc, ?Hts, ?length_app; simpl; rewrite ?length_app; simpl; lia. }
  split.
  - pose proof (perform_steps fromisoformat clock str_lower false o s ltac:(done)) as Hr.
    induction Hr as [|s1 s2 s3 H12 _ IH]; [lia|].
    destruct (Hstep _ _ H12) as (? & ? & _). lia.
  - apply (after_invariant fromisoformat clock str_lower false
             (λ s, 0 ≤ held s ≤ idCounter s)); [unfold held; simpl; lia| |done].
    intros s1 s2 H12 Hs. destruct (Hstep _ _ H12) as (? & ? & ?). lia.
Qed.
End Fields.

(** ** Calls in a row *)

Lemma append_empty_r (a : string) : a +:+ "" = a.
Proof.
  induction a as [|c a IH]; [done|].
  change (String c (a +:+ "") = String c a). by rewrite IH.
Qed.

Lemma contains_refl (a : string) : contains a a = true.
Proof. apply contains_spec. exists "", "". symmetry. apply append_empty_r. Qed.

Section InARow.
Variable fromisoformat : string → result datetime.
Variable clock : nat → Z.
Variable str_lower : string → string.

(** X21, [addTask] then [completeTask] (lines 11-25, 34-44): after any
    calls among which no [updateTask] assigns the key [id], adding a task
    and completing it by the id it was given returns that task, marked
    completed, puts it last in the completed collection and leaves the open
    collection as it was before the two calls; completing it once more
    finds nothing. *)
Theorem addTask_then_completeTask (ops : list op) (t : string)
    (priority dueDate : option value) (due : value) :
  Forall keeps_ids ops → t ≠ "" →
  parse_dueDate fromisoformat (default VNone dueDate) = Ok due →
  let s := after fromisoformat clock str_lower ops in
  let r1 := addTask fromisoformat clock (VStr t) priority dueDate s in
  let r2 := completeTask clock (VInt (idCounter s + 1)) r1.2 in
  ∃ task,
    r1.1 = Ok task ∧
    r2.1 = Ok (Some (completed_at clock r1.2 task)) ∧
    tasks r2.2 = tasks s ∧
    completedTasks r2.2 = completedTasks s ++ [completed_at clock r1.2 task] ∧
    completeTask clock (VInt (idCounter s + 1)) r2.2 = (Ok None, r2.2).
Proof.
  intros Hk Hne Hd s r1 r2.
  pose proof (after_consistent fromisoformat clock str_lower ops Hk) as Hs. fold s in Hs.
  pose proof (addTask_consistent fromisoformat clock (VStr t) priority dueDate s Hs)
    as Hs1. unfold exec in Hs1. fold r1 in Hs1.
  pose proof (addTask_effect fromisoformat clock (VStr t) priority dueDate s)
    as (Hc1 & _ & He). simpl in Hc1, He. fold r1 in Hc1, He.
  assert (Hok : ∃ task, r1.1 = Ok task).
  { subst r1.
    destruct (addTask_run fromisoformat clock (VStr t) priority dueDate due s Hd)
      as (h & es & ->).
    rewrite (proj2 (truthy_VStr t) Hne). by eexists. }
  destruct Hok as [task Hok]. rewrite Hok in He.
  destruct He as (due' & _ & _ & _ & Htask & Ht1 & Hn1).
  exists task. split; [done|].
  assert (Hnames : names (VInt (idCounter s + 1)) task).
  { exists (VInt (idCounter s + 1)). split.
    - rewrite Htask. unfold new_task. by simplify_map_eq.
    - unfold py_eq. simpl. apply Z.eqb_refl. }
  destruct (completeTask_consistent_found clock r1.2 (VInt (idCounter s + 1))
              (tasks s) task [] Hs1 Ht1 Hnames) as (H1 & H2 & H3 & _ & H5).
  fold r2 in H1, H2, H3, H5. rewrite app_nil_r in H2.
  split_and!; try done. by rewrite H3, Hc1.
Qed.

(** X22, [addTask] then [searchTasks] (lines 11-25, 103-104): on open
    tasks whose title and description are strings, a task just added is
    found by a search for every query whose lowered form is a substring of
    its lowered title, so by its title itself: it is the last of the
    result, after the tasks the same search found before the call. *)
Theorem addTask_then_searchTasks (t query : string) (priority dueDate : option value)
    (due : value) (s : State) :
  Forall searchable (tasks s) → t ≠ "" →
  (∃ pre post, str_lower t = pre +:+ str_lower query +:+ post) →
  parse_dueDate fromisoformat (default VNone dueDate) = Ok due →
  let r1 := addTask fromisoformat clock (VStr t) priority dueDate s in
  ∃ task found,
    r1.1 = Ok task ∧
    task !! "title" = Some (VStr t) ∧
    searchTasks str_lower query r1.2 = (Ok (found ++ [task]), r1.2) ∧
    eval (searchTasks str_lower query) s = Ok found ∧
    eval (searchTasks str_lower t) r1.2
    = Ok (filter (λ x, matchesb str_lower t x) (tasks s) ++ [task]).
Proof.
  intros Hs Hne Hq Hd r1. subst r1.
  destruct (addTask_run fromisoformat clock (VStr t) priority dueDate due s Hd)
    as (h & es & ->).
  rewrite (proj2 (truthy_VStr t) Hne). simpl.
  set (task := new_task clock s (VStr t) (default (VStr "medium") priority) due).
  assert (Htt : task !! "title" = Some (VStr t)).
  { subst task. unfold new_task. by simplify_map_eq. }
  assert (Hst : searchable task).
  { subst task. unfold searchable, new_task. split; [eexists|left]; by simplify_map_eq. }
  assert (Hm : ∀ q, contains (str_lower q) (str_lower t) = true →
                    matchesb str_lower q task = true).
  { intros q Hc. subst task. unfold matchesb, dict_get, new_task. simplify_map_eq.
    by rewrite Hc. }
  assert (Hall : ∀ q x, x ∈ tasks s ++ [task] →
                        search_match str_lower q x = Ok (matchesb str_lower q x)).
  { intros q x Hx. apply search_match_searchable.
    apply elem_of_app in Hx as [Hx|Hx%list_elem_of_singleton]; [|by subst].
    rewrite Forall_forall in Hs. by apply Hs. }
  assert (Hrun : ∀ q, contains (str_lower q) (str_lower t) = true →
            comprehension (search_match str_lower q) (tasks s ++ [task])
            = Ok (filter (λ x, matchesb str_lower q x) (tasks s) ++ [task])).
  { intros q Hc. rewrite (comprehension_filter _ (matchesb str_lower q)) by apply Hall.
    f_equal. rewrite filter_app. f_equal.
    rewrite filter_cons, decide_True by (by rewrite (Hm q Hc)). done. }
  exists task, (filter (λ x, matchesb str_lower query x) (tasks s)).
  split; [done|]. split; [done|].
  unfold searchTasks, eval. unfold_M. simpl.
  rewrite (Hrun query) by (by apply contains_spec).
  rewrite (Hrun t) by apply contains_refl.
  split_and!; try done.
  rewrite (comprehension_filter _ (matchesb str_lower query)); [done|].
  intros x Hx. apply Hall. apply elem_of_app. by left.
Qed.
End InARow.

Lemma addTask_then_completeTask_witness :
  Forall keeps_ids plain_calls ∧
  ∃ task,
    (addTask fromisoformat_date (clock_from t2025) (VStr "D") None None
       (after fromisoformat_date (clock_from t2025) lower plain_calls)).1 = Ok task.
Proof.
  assert (H : Forall keeps_ids plain_calls).
  { unfold plain_calls. repeat constructor. }
  split; [exact H|].
  destruct (addTask_then_completeTask fromisoformat_date (clock_from t2025) lower
              plain_calls "D" None None VNone H) as (task & H1 & _).
  - discriminate.
  - reflexivity.
  - exists task. exact H1.
Defined.

Lemma addTask_then_searchTasks_witness :
  ∃ task found,
    (addTask fromisoformat_date (clock_from t2025) (VStr "Report") None None
       three_tasks).1 = Ok task ∧
    task !! "title" = Some (VStr "Report") ∧
    searchTasks lower "REPO"
      (addTask fromisoformat_date (clock_from t2025) (VStr "Report") None None
         three_tasks).2
    = (Ok (found ++ [task]),
       (addTask fromisoformat_date (clock_from t2025) (VStr "Report") None None
          three_tasks).2) ∧
    eval (searchTasks lower "REPO") three_tasks = Ok found.
Proof.
  destruct (addTask_then_searchTasks fromisoformat_date (clock_from t2025) lower
              "Report" "REPO" None None VNone three_tasks)
    as (task & found & H1 & H2 & H3 & H4 & _).
  - exact three_tasks_searchable.
  - discriminate.
  - exists "", "rt". reflexivity.
  - reflexivity.
  - exists task, found. split; [exact H1|]. split; [exact H2|]. split; [exact H3|exact H4].
Defined.
